(** * Event registration: record lifecycle and ledger

    A shallow embedding of the business logic of
    [components/EventRegistrationApp.tsx] (the [.web.tsx] variant has the
    same handlers and two more form fields, [church] and [zone]).

    Conventions of the embedding.
    - A JavaScript [number] holding a money amount is an integer of [Z]:
      prices are whole naira and the arithmetic of the handlers ([+], [-],
      comparisons with [0]) is exact on integers.  Rounding of doubles is
      outside this development.
    - A JavaScript string is a [string] (a sequence of bytes); [===] on
      strings is [String.eqb].
    - An optional field ([guestName?: string]) is an [option]; [undefined]
      and [null] are [None].
    - A React state update is explicit state passing: a handler is a
      function of the state captured by the render that created it, and
      it returns the list it hands to [saveRegistrations]. *)

From Stdlib Require Import ZArith List String Ascii Bool Lia DecimalString.
Import ListNotations.

Local Open Scope string_scope.
Local Open Scope Z_scope.

(** ** Data model *)

Inductive TicketType := solo | guest.
Inductive PaymentMethod := cash | transfer.
Inductive Status := paid | pending.

(** [interface Registration].  [paymentMethod] is declared
    ['cash' | 'transfer'], but [handlePayment] stores the form state
    through a non-null assertion ([paymentMethod!]), so the value kept at
    run time is the one of the form state, which may be [null]. *)
Record Registration := mkRegistration {
  id : string;
  name : string;
  phone : string;
  email : string;
  ticketType : TicketType;
  guestName : option string;
  totalDue : Z;
  totalPaid : Z;
  balance : Z;
  paymentMethod : option PaymentMethod;
  status : Status;
  transactionRef : option string;
  receiptImage : option string;
  createdAt : string;
  ticketQR : option string;
  emailSent : option bool;
  checkedIn : option bool
}.

(** [Partial<Registration>]: every key may be absent ([None]).  For a key
    that is itself optional, [Some None] is the key present with the value
    [undefined]. *)
Record Updates := mkUpdates {
  u_id : option string;
  u_name : option string;
  u_phone : option string;
  u_email : option string;
  u_ticketType : option TicketType;
  u_guestName : option (option string);
  u_totalDue : option Z;
  u_totalPaid : option Z;
  u_balance : option Z;
  u_paymentMethod : option (option PaymentMethod);
  u_status : option Status;
  u_transactionRef : option (option string);
  u_receiptImage : option (option string);
  u_createdAt : option string;
  u_ticketQR : option (option string);
  u_emailSent : option (option bool);
  u_checkedIn : option (option bool)
}.

(** The empty object literal [{}]. *)
Definition noUpdates : Updates :=
  mkUpdates None None None None None None None None None
            None None None None None None None None.

(** One key of an object spread: a key of the right operand wins. *)
Definition override {A : Type} (new : option A) (old : A) : A :=
  match new with
  | Some v => v
  | None => old
  end.

(** [{ ...reg, ...updates }]. *)
Definition spread (reg : Registration) (updates : Updates) : Registration :=
  {| id := override (u_id updates) (id reg);
     name := override (u_name updates) (name reg);
     phone := override (u_phone updates) (phone reg);
     email := override (u_email updates) (email reg);
     ticketType := override (u_ticketType updates) (ticketType reg);
     guestName := override (u_guestName updates) (guestName reg);
     totalDue := override (u_totalDue updates) (totalDue reg);
     totalPaid := override (u_totalPaid updates) (totalPaid reg);
     balance := override (u_balance updates) (balance reg);
     paymentMethod := override (u_paymentMethod updates) (paymentMethod reg);
     status := override (u_status updates) (status reg);
     transactionRef := override (u_transactionRef updates) (transactionRef reg);
     receiptImage := override (u_receiptImage updates) (receiptImage reg);
     createdAt := override (u_createdAt updates) (createdAt reg);
     ticketQR := override (u_ticketQR updates) (ticketQR reg);
     emailSent := override (u_emailSent updates) (emailSent reg);
     checkedIn := override (u_checkedIn updates) (checkedIn reg) |}.

(** Truthiness of the values the handlers test. *)
Definition truthy (s : string) : bool :=
  match s with
  | EmptyString => false
  | String _ _ => true
  end.

Definition truthyOpt (s : option string) : bool :=
  match s with
  | Some v => truthy v
  | None => false
  end.

Definition isTrue (b : option bool) : bool :=
  match b with
  | Some true => true
  | _ => false
  end.

(** ** Registration store *)

(** [saveRegistrations]: the state becomes the new list once the write to
    the key-value store has returned; when the write throws, the error is
    logged and the state keeps the list it had. *)
Definition saveRegistrations (writeOk : bool)
    (registrations newRegistrations : list Registration) : list Registration :=
  if writeOk then newRegistrations else registrations.

(** [addRegistration]: the list handed to [saveRegistrations]. *)
Definition addRegistration (registrations : list Registration)
    (registration : Registration) : list Registration :=
  registrations ++ [registration].

(** [updateRegistration]: the list handed to [saveRegistrations]. *)
Definition updateRegistration (registrations : list Registration)
    (i : string) (updates : Updates) : list Registration :=
  map (fun reg => if String.eqb (id reg) i then spread reg updates else reg)
      registrations.

(** ** Registration workflow ([RegistrationPage]) *)

(** The [formData] state. *)
Record FormData := mkFormData {
  form_name : string;
  form_phone : string;
  form_email : string;
  form_ticketType : TicketType;
  form_guestName : string
}.

(** The state of [RegistrationPage] that [handlePayment] reads. *)
Record PaymentStep := mkPaymentStep {
  formData : FormData;
  step_paymentMethod : option PaymentMethod;
  staffPin : string;
  step_transactionRef : string;
  step_receiptImage : option string
}.

(** The two readings of the clock in [handlePayment]: [Date.now()] in
    milliseconds and [new Date().toISOString()]. *)
Record Clock := mkClock {
  now : N;
  isoString : string
}.

(** The messages the components pass to [setError]. *)
Inductive AppError :=
| FillRequiredFields
| EnterGuestName
| InvalidStaffPin
| EnterTransactionRef
| UploadReceipt
| TicketNotFound
| PaymentNotComplete (outstanding : Z).



Section Messages.
(** [Number.prototype.toLocaleString], which depends on the locale. *)
Variable toLocaleString : Z -> string.

Definition errorText (e : AppError) : string :=
  match e with
  | FillRequiredFields => "Please fill all required fields"
  | EnterGuestName => "Please enter guest name"
  | InvalidStaffPin => "Invalid Staff PIN"
  | EnterTransactionRef => "Please enter transaction reference"
  | UploadReceipt => "Please upload payment receipt"
  | TicketNotFound => "Ticket ID not found"
  | PaymentNotComplete outstanding =>
      "Payment not complete. Balance: ₦" ++ toLocaleString outstanding
  end.
End Messages.

(** [String.prototype.trim] on the white space and line terminators of
    ASCII (tab, line feed, vertical tab, form feed, carriage return,
    space).  The spaces outside ASCII that [trim] also strips are not
    modelled. *)
Definition isWhiteSpace (c : ascii) : bool :=
  let n := N_of_ascii c in
  (((9 <=? n) && (n <=? 13)) || (n =? 32))%N.

Fixpoint dropWhiteSpace (l : list ascii) : list ascii :=
  match l with
  | [] => []
  | c :: l' => if isWhiteSpace c then dropWhiteSpace l' else l
  end.

Definition trim (s : string) : string :=
  string_of_list_ascii
    (rev (dropWhiteSpace (rev (dropWhiteSpace (list_ascii_of_string s))))).

(** [ticketPrice]. *)
Definition ticketPrice (t : TicketType) : Z :=
  match t with
  | solo => 2000
  | guest => 3000
  end.

(** [handleSubmit]: [None] when the form moves on to the payment step. *)
Definition handleSubmit (f : FormData) : option AppError :=
  if negb (truthy (form_name f)) || negb (truthy (form_phone f))
     || negb (truthy (form_email f))
  then Some FillRequiredFields
  else
    match form_ticketType f with
    | guest => if negb (truthy (form_guestName f)) then Some EnterGuestName
               else None
    | solo => None
    end.

(** The [disabled] attribute of the Submit button of the payment step. *)
Definition submitDisabled (s : PaymentStep) : bool :=
  match step_paymentMethod s with
  | None => true
  | Some cash => negb (truthy (staffPin s))
  | Some transfer =>
      negb (truthy (step_transactionRef s))
      || negb (truthyOpt (step_receiptImage s))
  end.

(** The guards at the head of [handlePayment]. *)
Definition paymentError (s : PaymentStep) : option AppError :=
  match step_paymentMethod s with
  | Some cash =>
      if negb (String.eqb (staffPin s) "1234") then Some InvalidStaffPin
      else None
  | Some transfer =>
      if negb (truthy (trim (step_transactionRef s)))
      then Some EnterTransactionRef
      else if negb (truthyOpt (step_receiptImage s)) then Some UploadReceipt
      else None
  | None => None
  end.

Definition isCash (m : option PaymentMethod) : bool :=
  match m with
  | Some cash => true
  | _ => false
  end.

Definition isTransfer (m : option PaymentMethod) : bool :=
  match m with
  | Some transfer => true
  | _ => false
  end.

(** [Date.now().toString()]. *)
Definition timestampId (c : Clock) : string :=
  NilEmpty.string_of_uint (N.to_uint (now c)).

(** The object literal [registration] of [handlePayment]. *)
Definition newRegistration (c : Clock) (s : PaymentStep) : Registration :=
  let f := formData s in
  let price := ticketPrice (form_ticketType f) in
  let method := step_paymentMethod s in
  {| id := timestampId c;
     name := form_name f;
     phone := form_phone f;
     email := form_email f;
     ticketType := form_ticketType f;
     guestName := match form_ticketType f with
                  | guest => Some (form_guestName f)
                  | solo => None
                  end;
     totalDue := price;
     totalPaid := if isCash method then price else 0;
     balance := if isCash method then 0 else price;
     paymentMethod := method;
     status := if isCash method then paid else pending;
     transactionRef := if isTransfer method
                       then Some (step_transactionRef s) else None;
     receiptImage := if isTransfer method then step_receiptImage s else None;
     createdAt := isoString c;
     ticketQR := None;
     emailSent := None;
     checkedIn := None |}.

(** [handlePayment]: the error it reports, or the record it passes to
    [onRegister]. *)
Definition handlePayment (c : Clock) (s : PaymentStep)
    : AppError + Registration :=
  match paymentError s with
  | Some e => inl e
  | None => inr (newRegistration c s)
  end.

(** What [handlePayment] leaves in the store, [onRegister] being
    [addRegistration]. *)
Definition register (registrations : list Registration)
    (c : Clock) (s : PaymentStep) : AppError + list Registration :=
  match handlePayment c s with
  | inl e => inl e
  | inr registration => inr (addRegistration registrations registration)
  end.

(** ** E-ticket ([generateQRCode], [sendETicket]) *)

Definition charString (n : N) : string := String (ascii_of_N n) EmptyString.

Definition hexDigit (upper : bool) (n : N) : string :=
  (if n <? 10 then charString (48 + n)
   else charString ((if upper then 55 else 87) + n))%N.

(** One character of a JSON string literal, as [JSON.stringify] writes it. *)
Definition jsonEscape (c : ascii) : string :=
  let n := N_of_ascii c in
  (if n =? 34 then charString 92 ++ charString 34
   else if n =? 92 then charString 92 ++ charString 92
   else if n =? 8 then charString 92 ++ "b"
   else if n =? 9 then charString 92 ++ "t"
   else if n =? 10 then charString 92 ++ "n"
   else if n =? 12 then charString 92 ++ "f"
   else if n =? 13 then charString 92 ++ "r"
   else if n <? 32
        then charString 92 ++ "u00" ++ hexDigit false (n / 16)
             ++ hexDigit false (n mod 16)
   else String c EmptyString)%N.

Fixpoint jsonEscapeAll (s : string) : string :=
  match s with
  | EmptyString => EmptyString
  | String c s' => jsonEscape c ++ jsonEscapeAll s'
  end.

Definition jsonString (s : string) : string :=
  charString 34 ++ jsonEscapeAll s ++ charString 34.

Definition ticketTypeName (t : TicketType) : string :=
  match t with
  | solo => "solo"
  | guest => "guest"
  end.

(** [JSON.stringify({ id, name, ticketType, guestName })]: a key whose
    value is [undefined] is left out. *)
Definition qrData (registration : Registration) : string :=
  "{" ++ jsonString "id" ++ ":" ++ jsonString (id registration)
  ++ "," ++ jsonString "name" ++ ":" ++ jsonString (name registration)
  ++ "," ++ jsonString "ticketType" ++ ":"
  ++ jsonString (ticketTypeName (ticketType registration))
  ++ match guestName registration with
     | Some g => "," ++ jsonString "guestName" ++ ":" ++ jsonString g
     | None => EmptyString
     end
  ++ "}".

(** The characters [encodeURIComponent] keeps: letters, digits and
    [- _ . ! ~ * ' ( )]. *)
Definition isUnreserved (c : ascii) : bool :=
  let n := N_of_ascii c in
  (((65 <=? n) && (n <=? 90)) || ((97 <=? n) && (n <=? 122))
   || ((48 <=? n) && (n <=? 57))
   || (n =? 45) || (n =? 95) || (n =? 46) || (n =? 33) || (n =? 126)
   || (n =? 42) || (n =? 39) || (n =? 40) || (n =? 41))%N.

(** [encodeURIComponent] on the bytes of the UTF-8 encoding. *)
Fixpoint encodeURIComponent (s : string) : string :=
  match s with
  | EmptyString => EmptyString
  | String c s' =>
      (if isUnreserved c then String c EmptyString
       else "%" ++ hexDigit true (N_of_ascii c / 16)
            ++ hexDigit true (N_of_ascii c mod 16))
      ++ encodeURIComponent s'
  end.

(** [generateQRCode]. *)
Definition generateQRCode (registration : Registration) : string :=
  "https://api.qrserver.com/v1/create-qr-code/?size=300x300&data="
  ++ encodeURIComponent (qrData registration).

(** The object [sendETicket] returns in place of a sent message. *)
Record Email := mkEmail {
  to : string;
  subject : string;
  qrCode : string
}.

(** [{ ticketQR: qrCode, emailSent: true }]. *)
Definition ticketUpdates (code : string) : Updates :=
  {| u_id := None; u_name := None; u_phone := None; u_email := None;
     u_ticketType := None; u_guestName := None; u_totalDue := None;
     u_totalPaid := None; u_balance := None; u_paymentMethod := None;
     u_status := None; u_transactionRef := None; u_receiptImage := None;
     u_createdAt := None;
     u_ticketQR := Some (Some code);
     u_emailSent := Some (Some true);
     u_checkedIn := None |}.

(** [sendETicket]: the list it saves and the object it returns.  It reads
    no field of [registration] besides [id], [name], [ticketType],
    [guestName] and [email], and tests none. *)
Definition sendETicket (registrations : list Registration)
    (registration : Registration) : list Registration * Email :=
  let code := generateQRCode registration in
  (updateRegistration registrations (id registration) (ticketUpdates code),
   {| to := email registration;
      subject := "Your Event E-Ticket";
      qrCode := code |}).

(** ** Payment ledger ([AdminDashboard])

    The handlers of a render of [AdminDashboard] call the props of that
    render: [onUpdateRegistration] and [onSendETicket] are
    [updateRegistration] and [sendETicket] of the render of the
    application that produced it, and both read the [registrations] of
    that render. *)

(** [{ status: 'paid', totalPaid: reg.totalDue, balance: 0 }]. *)
Definition approveUpdates (reg : Registration) : Updates :=
  {| u_id := None; u_name := None; u_phone := None; u_email := None;
     u_ticketType := None; u_guestName := None; u_totalDue := None;
     u_totalPaid := Some (totalDue reg);
     u_balance := Some 0;
     u_paymentMethod := None;
     u_status := Some paid;
     u_transactionRef := None; u_receiptImage := None;
     u_createdAt := None; u_ticketQR := None; u_emailSent := None;
     u_checkedIn := None |}.

(** [handleSendETicket]: the list saved by [onSendETicket]. *)
Definition handleSendETicket (registrations : list Registration)
    (reg : Registration) : list Registration :=
  fst (sendETicket registrations reg).

(** The two saves of [handleApprove]: the one of its own update, and the
    one of the callback it schedules with [setTimeout(..., 500)].  The
    callback is a closure of the same render, so [handleSendETicket]
    starts again from the [registrations] the handler started from. *)
Record Approval := mkApproval {
  savedAtOnce : list Registration;
  savedByTimer : list Registration
}.

Definition handleApprove (registrations : list Registration)
    (reg : Registration) : Approval :=
  {| savedAtOnce :=
       updateRegistration registrations (id reg) (approveUpdates reg);
     savedByTimer := handleSendETicket registrations reg |}.

(** The condition under which the Approve button of a row is rendered. *)
Definition approveOffered (reg : Registration) : bool :=
  match status reg with
  | pending => isTransfer (paymentMethod reg)
  | paid => false
  end.

(** The value of [parseFloat(partialAmount)]. *)
Inductive ParsedAmount :=
| NaN
| Num (amount : Z).

(** The object literal that [handleAddPartialPayment] passes on. *)
Definition paymentUpdates (reg : Registration) (amount : Z) : Updates :=
  let newTotalPaid := totalPaid reg + amount in
  let newBalance := totalDue reg - newTotalPaid in
  {| u_id := None; u_name := None; u_phone := None; u_email := None;
     u_ticketType := None; u_guestName := None; u_totalDue := None;
     u_totalPaid := Some newTotalPaid;
     u_balance := Some newBalance;
     u_paymentMethod := None;
     u_status := Some (if newBalance <=? 0 then paid else status reg);
     u_transactionRef := None; u_receiptImage := None;
     u_createdAt := None; u_ticketQR := None; u_emailSent := None;
     u_checkedIn := None |}.

(** [handleAddPartialPayment]: [None] when it returns before any update,
    else the list saved. *)
Definition handleAddPartialPayment (registrations : list Registration)
    (reg : Registration) (parsed : ParsedAmount)
    : option (list Registration) :=
  match parsed with
  | NaN => None
  | Num amount =>
      if amount <=? 0 then None
      else Some (updateRegistration registrations (id reg)
                                    (paymentUpdates reg amount))
  end.

(** ** Check-in lookup ([QRScannerPage]) *)

(** [handleManualSearch]: the error set, or the record put in
    [scanResult]. *)
Definition handleManualSearch (registrations : list Registration)
    (manualId : string) : AppError + Registration :=
  match find (fun r => String.eqb (id r) (trim manualId)) registrations with
  | None => inl TicketNotFound
  | Some reg =>
      if 0 <? balance reg then inl (PaymentNotComplete (balance reg))
      else inr reg
  end.

(** [{ checkedIn: true }]. *)
Definition checkInUpdates : Updates :=
  {| u_id := None; u_name := None; u_phone := None; u_email := None;
     u_ticketType := None; u_guestName := None; u_totalDue := None;
     u_totalPaid := None; u_balance := None; u_paymentMethod := None;
     u_status := None; u_transactionRef := None; u_receiptImage := None;
     u_createdAt := None; u_ticketQR := None; u_emailSent := None;
     u_checkedIn := Some (Some true) |}.

(** [handleCheckIn]: [None] when there is no [scanResult]. *)
Definition handleCheckIn (registrations : list Registration)
    (scanResult : option Registration) : option (list Registration) :=
  match scanResult with
  | Some found => Some (updateRegistration registrations (id found)
                                           checkInUpdates)
  | None => None
  end.

(** The two panels rendered for a [scanResult]: the welcome panel of an
    attendee already checked in, or the ticket with its Check In button. *)
Inductive ScanPanel :=
| WelcomePanel
| ValidTicketPanel.

Definition renderScanResult (scanResult : Registration) : ScanPanel :=
  if isTrue (checkedIn scanResult) then WelcomePanel else ValidTicketPanel.

(** A look-up followed by a press of the Check In button where the panel
    has one. *)
Inductive CheckInOutcome :=
| Refused (e : AppError)
| AlreadyCheckedIn (found : Registration)
| CheckedIn (saved : list Registration).

Definition checkIn (registrations : list Registration)
    (manualId : string) : CheckInOutcome :=
  match handleManualSearch registrations manualId with
  | inl e => Refused e
  | inr found =>
      match renderScanResult found with
      | WelcomePanel => AlreadyCheckedIn found
      | ValidTicketPanel =>
          CheckedIn (updateRegistration registrations (id found)
                                        checkInUpdates)
      end
  end.

(** ** The operations on the store

    One user action at a time: a handler runs on the list of the current
    render and its save is over before the next action.  [writeOk] tells
    whether the write to the key-value store returned.

    The callback that [handleApprove] schedules runs half a second after
    the press of the button; [step_approve] gives the store before it has
    run and [step_approve_timer] the store once it has, no other action
    coming in between.

    The identifier of a new record is the clock reading in milliseconds;
    the success panel keeps the form away for three seconds after a
    registration, and [step_register] takes the identifier to be new to
    the store.

    The Check In button stays on the panel for two seconds after it was
    pressed; a second press saves the same update again and leaves the
    store as the first press left it. *)
Inductive step (registrations : list Registration)
    : list Registration -> Prop :=
| step_register (c : Clock) (s : PaymentStep) (registration : Registration)
    (writeOk : bool) :
    handleSubmit (formData s) = None ->
    submitDisabled s = false ->
    handlePayment c s = inr registration ->
    ~ In (id registration) (map id registrations) ->
    step registrations
         (saveRegistrations writeOk registrations
            (addRegistration registrations registration))
| step_approve (reg : Registration) (writeOk : bool) :
    In reg registrations ->
    approveOffered reg = true ->
    step registrations
         (saveRegistrations writeOk registrations
            (savedAtOnce (handleApprove registrations reg)))
| step_approve_timer (reg : Registration) (writeOk writeOk' : bool) :
    In reg registrations ->
    approveOffered reg = true ->
    step registrations
         (saveRegistrations writeOk'
            (saveRegistrations writeOk registrations
               (savedAtOnce (handleApprove registrations reg)))
            (savedByTimer (handleApprove registrations reg)))
| step_add_payment (reg : Registration) (parsed : ParsedAmount)
    (saved : list Registration) (writeOk : bool) :
    In reg registrations ->
    0 < balance reg ->
    handleAddPartialPayment registrations reg parsed = Some saved ->
    step registrations (saveRegistrations writeOk registrations saved)
| step_send_ticket (reg : Registration) (writeOk : bool) :
    In reg registrations ->
    balance reg = 0 ->
    isTrue (emailSent reg) = false ->
    step registrations
         (saveRegistrations writeOk registrations
            (handleSendETicket registrations reg))
| step_check_in (manualId : string) (saved : list Registration)
    (writeOk : bool) :
    checkIn registrations manualId = CheckedIn saved ->
    step registrations (saveRegistrations writeOk registrations saved).

(** The stores the application can be in, starting from an empty one. *)
Inductive reachable : list Registration -> Prop :=
| reachable_empty : reachable []
| reachable_step (registrations registrations' : list Registration) :
    reachable registrations ->
    step registrations registrations' ->
    reachable registrations'.

(** The two ledger invariants of a record. *)
Definition balanced (reg : Registration) : Prop :=
  totalPaid reg + balance reg = totalDue reg.

Definition statusDerived (reg : Registration) : Prop :=
  (status reg = paid <-> balance reg <= 0)
  /\ (status reg = pending <-> 0 < balance reg).


(** The invariant of the store: identifiers are distinct and every record
    satisfies the two ledger invariants. *)
Definition wellFormed (registrations : list Registration) : Prop :=
  NoDup (map id registrations)
  /\ Forall balanced registrations
  /\ Forall statusDerived registrations.


(** An update that leaves the identifier and the ledger alone. *)
Definition keepsLedger (updates : Updates) : Prop :=
  u_id updates = None /\ u_totalDue updates = None
  /\ u_totalPaid updates = None /\ u_balance updates = None
  /\ u_status updates = None.



(** ** Sample data

    The records and form states at which the properties below are
    evaluated. *)

(** A paid solo ticket whose e-ticket has been sent. *)
Definition sentTicket : Registration :=
  {| id := "1700000000000"; name := "Ada"; phone := "0800";
     email := "ada@example.com"; ticketType := solo; guestName := None;
     totalDue := 2000; totalPaid := 2000; balance := 0;
     paymentMethod := Some cash; status := paid;
     transactionRef := None; receiptImage := None;
     createdAt := "2023-11-14T22:13:20.000Z";
     ticketQR := Some "https://api.qrserver.com/v1/create-qr-code/?size=300x300&data=%7B%22id%22%3A%221700000000000%22%2C%22name%22%3A%22Ada%22%2C%22ticketType%22%3A%22solo%22%7D";
     emailSent := Some true; checkedIn := None |}.

(** A guest ticket paid by transfer and waiting for approval. *)
Definition pendingGuest : Registration :=
  {| id := "1700000005000"; name := "Bola"; phone := "0801";
     email := "bola@example.com"; ticketType := guest;
     guestName := Some "Chidi";
     totalDue := 3000; totalPaid := 0; balance := 3000;
     paymentMethod := Some transfer; status := pending;
     transactionRef := Some "TRF1";
     receiptImage := Some "data:image/png;base64,iVBORw0KGgo=";
     createdAt := "2023-11-14T22:13:25.000Z";
     ticketQR := None; emailSent := None; checkedIn := None |}.

(** A solo ticket paid by transfer and waiting for approval. *)
Definition unpaidSolo : Registration :=
  {| id := "1700000009000"; name := "Dayo"; phone := "0802";
     email := "dayo@example.com"; ticketType := solo; guestName := None;
     totalDue := 2000; totalPaid := 0; balance := 2000;
     paymentMethod := Some transfer; status := pending;
     transactionRef := Some "TRF2";
     receiptImage := Some "data:image/png;base64,iVBORw0KGgo=";
     createdAt := "2023-11-14T22:13:29.000Z";
     ticketQR := None; emailSent := None; checkedIn := None |}.

(** The same ticket after 2500 was paid in. *)
Definition overpaid : Registration :=
  {| id := "1700000009000"; name := "Dayo"; phone := "0802";
     email := "dayo@example.com"; ticketType := solo; guestName := None;
     totalDue := 2000; totalPaid := 2500; balance := -500;
     paymentMethod := Some transfer; status := paid;
     transactionRef := Some "TRF2";
     receiptImage := Some "data:image/png;base64,iVBORw0KGgo=";
     createdAt := "2023-11-14T22:13:29.000Z";
     ticketQR := None; emailSent := None; checkedIn := None |}.

Definition adaForm : FormData :=
  {| form_name := "Ada"; form_phone := "0800";
     form_email := "ada@example.com"; form_ticketType := solo;
     form_guestName := EmptyString |}.

Definition bolaForm : FormData :=
  {| form_name := "Bola"; form_phone := "0801";
     form_email := "bola@example.com"; form_ticketType := guest;
     form_guestName := "Chidi" |}.

(** Solo, cash, the right PIN. *)
Definition cashStep : PaymentStep :=
  {| formData := adaForm; step_paymentMethod := Some cash;
     staffPin := "1234"; step_transactionRef := EmptyString;
     step_receiptImage := None |}.

(** Solo, cash, a wrong PIN. *)
Definition wrongPinStep : PaymentStep :=
  {| formData := adaForm; step_paymentMethod := Some cash;
     staffPin := "0000"; step_transactionRef := EmptyString;
     step_receiptImage := None |}.

(** Guest, transfer, reference and receipt given. *)
Definition transferStep : PaymentStep :=
  {| formData := bolaForm; step_paymentMethod := Some transfer;
     staffPin := EmptyString; step_transactionRef := "TRF1";
     step_receiptImage := Some "data:image/png;base64,iVBORw0KGgo=" |}.


Definition clock0 : Clock :=
  {| now := 1700000000000; isoString := "2023-11-14T22:13:20.000Z" |}.

Definition clock1 : Clock :=
  {| now := 1700000005000; isoString := "2023-11-14T22:13:25.000Z" |}.

(** A paid solo ticket, not yet sent nor checked in. *)
Definition paidSolo : Registration :=
  {| id := "1700000000000"; name := "Ada"; phone := "0800";
     email := "ada@example.com"; ticketType := solo; guestName := None;
     totalDue := 2000; totalPaid := 2000; balance := 0;
     paymentMethod := Some cash; status := paid;
     transactionRef := None; receiptImage := None;
     createdAt := "2023-11-14T22:13:20.000Z";
     ticketQR := None; emailSent := None; checkedIn := None |}.


(** A store reached by two registrations and the approval of the second,
    its scheduled e-ticket included. *)
Ltac reach_sample :=
  apply (reachable_step [paidSolo; pendingGuest]);
  [ apply (reachable_step [paidSolo]);
    [ apply (reachable_step []);
      [ apply reachable_empty
      | apply (step_register [] clock0 cashStep paidSolo true);
        [ reflexivity | reflexivity | reflexivity | simpl; intros [] ] ]
    | apply (step_register [paidSolo] clock1 transferStep pendingGuest true);
      [ reflexivity | reflexivity | reflexivity
      | simpl; intros [H|[]]; discriminate H ] ]
  | apply (step_approve_timer [paidSolo; pendingGuest] pendingGuest true true);
    [ simpl; auto | reflexivity ] ].

(** ** Further notions used to state properties of the operations *)

(** An update that leaves alone what the form and the clock wrote at
    registration. *)
Definition keepsCore (updates : Updates) : Prop :=
  u_id updates = None /\ u_name updates = None /\ u_phone updates = None
  /\ u_email updates = None /\ u_ticketType updates = None
  /\ u_guestName updates = None /\ u_totalDue updates = None
  /\ u_paymentMethod updates = None /\ u_transactionRef updates = None
  /\ u_receiptImage updates = None /\ u_createdAt updates = None.

(** Two records with the same registration data. *)
Definition sameCore (a b : Registration) : Prop :=
  id a = id b /\ name a = name b /\ phone a = phone b /\ email a = email b
  /\ ticketType a = ticketType b /\ guestName a = guestName b
  /\ totalDue a = totalDue b /\ paymentMethod a = paymentMethod b
  /\ transactionRef a = transactionRef b /\ receiptImage a = receiptImage b
  /\ createdAt a = createdAt b.

(** What [handleSubmit] and [ticketPrice] guarantee of a record. *)
Definition fromValidForm (reg : Registration) : Prop :=
  truthy (name reg) = true /\ truthy (phone reg) = true
  /\ truthy (email reg) = true
  /\ match ticketType reg with
     | solo => guestName reg = None
     | guest => exists g, guestName reg = Some g /\ truthy g = true
     end
  /\ totalDue reg = ticketPrice (ticketType reg).

(** What the payment step guarantees of a record. *)
Definition paymentEvidence (reg : Registration) : Prop :=
  match paymentMethod reg with
  | Some cash => transactionRef reg = None /\ receiptImage reg = None
  | Some transfer =>
      exists ref image,
        transactionRef reg = Some ref /\ truthy (trim ref) = true
        /\ receiptImage reg = Some image /\ truthy image = true
  | None => False
  end.

(** The e-ticket fields of a record: both unset, or set to the code of the
    record itself. *)
Definition ticketConsistent (reg : Registration) : Prop :=
  (ticketQR reg = None /\ emailSent reg = None)
  \/ (ticketQR reg = Some (generateQRCode reg) /\ emailSent reg = Some true).

(** A record checked in owes nothing. *)
Definition checkedInPaid (reg : Registration) : Prop :=
  (checkedIn reg = None \/ checkedIn reg = Some true)
  /\ (checkedIn reg = Some true -> balance reg <= 0).




(** The invariant of a record of the store beyond its ledger. *)
Definition soundRecord (reg : Registration) : Prop :=
  fromValidForm reg /\ paymentEvidence reg
  /\ ticketConsistent reg /\ checkedInPaid reg.


(** A string made of white space only. *)
Definition blank (s : string) : bool :=
  forallb isWhiteSpace (list_ascii_of_string s).


(** ** Readers for the encodings of the e-ticket

    The application never decodes a code (the scanner takes the
    identifier typed in).  The two readers below undo [encodeURIComponent]
    and the string literals of [JSON.stringify]; they serve to show that
    a code determines the fields it was computed from. *)

Definition hexValue (c : ascii) : option N :=
  let n := N_of_ascii c in
  (if (48 <=? n) && (n <=? 57) then Some (n - 48)
   else if (65 <=? n) && (n <=? 70) then Some (n - 55)
   else if (97 <=? n) && (n <=? 102) then Some (n - 87)
   else None)%N.

(** The text a percent-encoded string stands for. *)
Fixpoint percentDecode (s : string) : option string :=
  match s with
  | EmptyString => Some EmptyString
  | String c rest =>
      if (N_of_ascii c =? 37)%N then
        match rest with
        | String h (String l rest') =>
            match hexValue h, hexValue l, percentDecode rest' with
            | Some a, Some b, Some text =>
                Some (String (ascii_of_N (16 * a + b)) text)
            | _, _, _ => None
            end
        | _ => None
        end
      else
        match percentDecode rest with
        | Some text => Some (String c text)
        | None => None
        end
  end.

(** The character a one-letter escape of a JSON string stands for. *)
Definition unescape (c : ascii) : option ascii :=
  let n := N_of_ascii c in
  (if n =? 34 then Some (ascii_of_N 34)
   else if n =? 92 then Some (ascii_of_N 92)
   else if n =? 98 then Some (ascii_of_N 8)
   else if n =? 116 then Some (ascii_of_N 9)
   else if n =? 110 then Some (ascii_of_N 10)
   else if n =? 102 then Some (ascii_of_N 12)
   else if n =? 114 then Some (ascii_of_N 13)
   else None)%N.

(** The text of a JSON string literal read from after its opening quote,
    and what follows its closing quote. *)
Fixpoint readJsonBody (s : string) : option (string * string) :=
  match s with
  | EmptyString => None
  | String c rest =>
      if (N_of_ascii c =? 34)%N then Some (EmptyString, rest)
      else if (N_of_ascii c =? 92)%N then
        match rest with
        | String e rest1 =>
            if (N_of_ascii e =? 117)%N then
              match rest1 with
              | String _ (String _ (String h (String l rest2))) =>
                  match hexValue h, hexValue l, readJsonBody rest2 with
                  | Some a, Some b, Some (text, after) =>
                      Some (String (ascii_of_N (16 * a + b)) text, after)
                  | _, _, _ => None
                  end
              | _ => None
              end
            else
              match unescape e, readJsonBody rest1 with
              | Some c', Some (text, after) => Some (String c' text, after)
              | _, _ => None
              end
        | EmptyString => None
        end
      else
        match readJsonBody rest with
        | Some (text, after) => Some (String c text, after)
        | None => None
        end
  end.


(** ** The export of the dashboard ([exportToCSV]) *)

(** The text of a number that holds an integer, as [Array.prototype.join]
    writes it. *)
Definition numberToString (z : Z) : string :=
  NilEmpty.string_of_int (Z.to_int z).

(** [cells.join(sep)]. *)
Fixpoint join (sep : string) (cells : list string) : string :=
  match cells with
  | [] => EmptyString
  | cell :: rest =>
      match rest with
      | [] => cell
      | _ :: _ => cell ++ sep ++ join sep rest
      end
  end.

(** [value || '-']. *)
Definition orDash (value : option string) : string :=
  match value with
  | Some v => if truthy v then v else "-"
  | None => "-"
  end.

Definition csvHeaders : list string :=
  [ "Name"; "Ticket Type"; "Guest Name"; "Total Due"; "Total Paid";
    "Balance"; "Payment Method"; "Status"; "Transaction Ref" ].

(** One element of [rows]. *)
Definition csvRow (reg : Registration) : list string :=
  [ name reg;
    match ticketType reg with solo => "Solo" | guest => "Me + 1 Guest" end;
    orDash (guestName reg);
    numberToString (totalDue reg);
    numberToString (totalPaid reg);
    numberToString (balance reg);
    if isCash (paymentMethod reg) then "Cash" else "Bank Transfer";
    match status reg with paid => "Paid" | pending => "Pending Approval" end;
    orDash (transactionRef reg) ].

(** The constant [csv] of [exportToCSV], the text put in the file. *)
Definition csvText (registrations : list Registration) : string :=
  join (charString 10)
       (map (join ",") (csvHeaders :: map csvRow registrations)).

(** How many times a character occurs in a text. *)
Fixpoint occurrences (c : ascii) (s : string) : nat :=
  match s with
  | EmptyString => 0
  | String d rest => (if Ascii.eqb c d then 1 else 0) + occurrences c rest
  end.

(** The commas, or the line feeds, of the three cells of a row that hold
    text typed by the registrant. *)
Definition typedOccurrences (c : ascii) (reg : Registration) : nat :=
  occurrences c (name reg) + occurrences c (orDash (guestName reg))
  + occurrences c (orDash (transactionRef reg)).


(** ** The pages of the application ([EventRegistrationApp])

    The states [view] and [isAdminAuth], the page rendered for them, and
    the callbacks the pages are given.  A callback can only be called by
    a button of the page that is rendered. *)

Inductive View := registerView | adminView | scannerView.

Record Shell := mkShell {
  view : View;
  isAdminAuth : bool
}.

(** [useState('register')] and [useState(false)]. *)
Definition initialShell : Shell :=
  {| view := registerView; isAdminAuth := false |}.

Inductive Page :=
| RegistrationPage
| QRScannerPage
| AdminLogin
| AdminDashboard.

(** The chain of [if (view === ...) return ...] of
    [EventRegistrationApp.tsx]. *)
Definition render (st : Shell) : Page :=
  match view st with
  | registerView => RegistrationPage
  | scannerView => QRScannerPage
  | adminView => if isAdminAuth st then AdminDashboard else AdminLogin
  end.

(** The same chain in [EventRegistrationApp.web.tsx], which ends with
    [return null]. *)
Definition renderWeb (st : Shell) : option Page :=
  match view st with
  | registerView => Some RegistrationPage
  | scannerView => Some QRScannerPage
  | adminView =>
      if negb (isAdminAuth st) then Some AdminLogin
      else if isAdminAuth st then Some AdminDashboard
      else None
  end.

(** The buttons that call a callback of the application: the lock of the
    registration page, Login (with the password typed) and Back of the
    login page, Logout, Register New and Scanner of the dashboard, Back
    of the scanner. *)
Inductive Press :=
| SwitchToAdmin
| Login (password : string)
| LoginBack
| Logout
| BackToRegister
| OpenScanner
| ScannerBack.

(** The callbacks of [EventRegistrationApp.tsx]; [Login] is
    [handleSubmit] of [AdminLogin], which calls [onLogin] for the
    password [admin123] and sets an error otherwise. *)
Definition press (st : Shell) (p : Press) : Shell :=
  match render st, p with
  | RegistrationPage, SwitchToAdmin =>
      {| view := adminView; isAdminAuth := isAdminAuth st |}
  | AdminLogin, Login password =>
      if String.eqb password "admin123"
      then {| view := view st; isAdminAuth := true |}
      else st
  | AdminLogin, LoginBack =>
      {| view := registerView; isAdminAuth := isAdminAuth st |}
  | AdminDashboard, Logout =>
      {| view := registerView; isAdminAuth := false |}
  | AdminDashboard, BackToRegister =>
      {| view := registerView; isAdminAuth := isAdminAuth st |}
  | AdminDashboard, OpenScanner =>
      {| view := scannerView; isAdminAuth := isAdminAuth st |}
  | QRScannerPage, ScannerBack =>
      {| view := adminView; isAdminAuth := isAdminAuth st |}
  | _, _ => st
  end.

(** The callbacks of [EventRegistrationApp.web.tsx]: the lock also clears
    [isAdminAuth], and Back of the scanner also sets it. *)
Definition pressWeb (st : Shell) (p : Press) : Shell :=
  match renderWeb st, p with
  | Some RegistrationPage, SwitchToAdmin =>
      {| view := adminView; isAdminAuth := false |}
  | Some AdminLogin, Login password =>
      if String.eqb password "admin123"
      then {| view := view st; isAdminAuth := true |}
      else st
  | Some AdminLogin, LoginBack =>
      {| view := registerView; isAdminAuth := isAdminAuth st |}
  | Some AdminDashboard, Logout =>
      {| view := registerView; isAdminAuth := false |}
  | Some AdminDashboard, BackToRegister =>
      {| view := registerView; isAdminAuth := isAdminAuth st |}
  | Some AdminDashboard, OpenScanner =>
      {| view := scannerView; isAdminAuth := isAdminAuth st |}
  | Some QRScannerPage, ScannerBack =>
      {| view := adminView; isAdminAuth := true |}
  | _, _ => st
  end.

(** A state without a session: [isAdminAuth] is false and the scanner is
    not shown.  The initial state is one, and so is the state after
    Logout. *)
Definition loggedOut (st : Shell) : bool :=
  match view st with
  | scannerView => false
  | registerView | adminView => negb (isAdminAuth st)
  end.

(** A page of the administrator. *)
Definition adminOnly (p : Page) : bool :=
  match p with
  | AdminDashboard | QRScannerPage => true
  | RegistrationPage | AdminLogin => false
  end.


(** ** The receipt upload ([handleImageUpload]) *)




(** * Properties *)

(** ** The store: [updateRegistration] *)

Section UpdateRegistration.
Variable registrations : list Registration.
Variable i : string.
Variable updates : Updates.

Lemma updateRegistration_length :
  List.length (updateRegistration registrations i updates)
  = List.length registrations.
Proof. unfold updateRegistration. apply length_map. Qed.

Lemma updateRegistration_nth (n : nat) :
  nth_error (updateRegistration registrations i updates) n =
  option_map (fun reg => if String.eqb (id reg) i then spread reg updates
                         else reg)
             (nth_error registrations n).
Proof. unfold updateRegistration. apply nth_error_map. Qed.

Lemma updateRegistration_In (x : Registration) :
  In x (updateRegistration registrations i updates) <->
  exists reg, In reg registrations
              /\ x = (if String.eqb (id reg) i then spread reg updates
                      else reg).
Proof.
  unfold updateRegistration. rewrite in_map_iff.
  split; intros [reg [H1 H2]]; exists reg; split; auto.
Qed.

Lemma updateRegistration_absent :
  (forall reg, In reg registrations -> id reg <> i) ->
  updateRegistration registrations i updates = registrations.
Proof.
  unfold updateRegistration.
  induction registrations as [|reg regs IH]; simpl; intros Habsent.
  - reflexivity.
  - destruct (String.eqb_spec (id reg) i) as [Heq|_].
    + exfalso. apply (Habsent reg); auto.
    + f_equal. apply IH. intros r Hr. apply Habsent. now right.
Qed.

Lemma updateRegistration_ids :
  u_id updates = None ->
  map id (updateRegistration registrations i updates) = map id registrations.
Proof.
  intros Hid. unfold updateRegistration. rewrite map_map.
  apply map_ext. intros reg.
  destruct (String.eqb (id reg) i); simpl; [rewrite Hid|]; reflexivity.
Qed.

Lemma updateRegistration_Forall (P : Registration -> Prop) :
  Forall P registrations ->
  (forall reg, In reg registrations -> id reg = i -> P (spread reg updates)) ->
  Forall P (updateRegistration registrations i updates).
Proof.
  intros Hall Hnew. apply Forall_forall. intros x Hx.
  apply updateRegistration_In in Hx. destruct Hx as [reg [Hin ->]].
  destruct (String.eqb_spec (id reg) i) as [Heq|_].
  - now apply Hnew.
  - rewrite Forall_forall in Hall. now apply Hall.
Qed.

End UpdateRegistration.

Lemma spread_noUpdates (reg : Registration) : spread reg noUpdates = reg.
Proof. destruct reg; reflexivity. Qed.

Lemma spread_twice (reg : Registration) (updates : Updates) :
  spread (spread reg updates) updates = spread reg updates.
Proof.
  destruct reg, updates; unfold spread; simpl.
  repeat match goal with
         | |- context [override ?o _] => destruct o; simpl
         end; reflexivity.
Qed.

(** Saving the same update of the same identifier twice is saving it once,
    as long as the update leaves the identifier alone. *)
Lemma updateRegistration_twice (registrations : list Registration)
    (i : string) (updates : Updates) :
  u_id updates = None ->
  updateRegistration (updateRegistration registrations i updates) i updates
  = updateRegistration registrations i updates.
Proof.
  intros Hid. unfold updateRegistration. rewrite map_map.
  apply map_ext. intros reg.
  destruct (String.eqb (id reg) i) eqn:E.
  - replace (id (spread reg updates)) with (id reg)
      by (simpl; now rewrite Hid).
    rewrite E. apply spread_twice.
  - now rewrite E.
Qed.

(** Records of a list with distinct identifiers are told apart by them. *)
Lemma distinct_ids_inj (registrations : list Registration)
    (a b : Registration) :
  NoDup (map id registrations) ->
  In a registrations -> In b registrations -> id a = id b -> a = b.
Proof.
  induction registrations as [|r regs IH]; simpl; intros Hnd Ha Hb Hid.
  - contradiction.
  - inversion Hnd as [|? ? Hnotin Hnd']; subst.
    destruct Ha as [->|Ha], Hb as [->|Hb]; auto.
    + exfalso. apply Hnotin. rewrite Hid. now apply in_map.
    + exfalso. apply Hnotin. rewrite <- Hid. now apply in_map.
Qed.

Example updateRegistration_sample :
  updateRegistration [paidSolo; pendingGuest] "1700000005000" checkInUpdates
  = [paidSolo; spread pendingGuest checkInUpdates]
  /\ updateRegistration [paidSolo; pendingGuest] "42" checkInUpdates
     = [paidSolo; pendingGuest].
Proof. split; reflexivity. Qed.

(** C9.  [updateRegistration] returns a list of the same length in which
    every position holding a record with the given identifier holds that
    record with the fields of the update written over it, and every other
    position holds the record it held; when no record has the identifier
    the list is returned as it was.  The function is total: nothing is
    raised. *)
Theorem updateRegistration_frame (registrations : list Registration)
    (i : string) (updates : Updates) :
  List.length (updateRegistration registrations i updates)
  = List.length registrations
  /\ (forall n reg, nth_error registrations n = Some reg -> id reg = i ->
        nth_error (updateRegistration registrations i updates) n
        = Some (spread reg updates))
  /\ (forall n reg, nth_error registrations n = Some reg -> id reg <> i ->
        nth_error (updateRegistration registrations i updates) n = Some reg)
  /\ ((forall reg, In reg registrations -> id reg <> i) ->
        updateRegistration registrations i updates = registrations).
Proof.
  split; [apply updateRegistration_length|].
  split; [|split].
  - intros n reg Hn Hid. rewrite updateRegistration_nth, Hn. simpl.
    apply String.eqb_eq in Hid. now rewrite Hid.
  - intros n reg Hn Hid. rewrite updateRegistration_nth, Hn. simpl.
    apply String.eqb_neq in Hid. now rewrite Hid.
  - apply updateRegistration_absent.
Qed.

(** With distinct identifiers there is one record to update: the list
    saved is the old one with that record replaced. *)
Lemma updateRegistration_one (registrations : list Registration)
    (reg : Registration) (updates : Updates) (x : Registration) :
  NoDup (map id registrations) ->
  In reg registrations ->
  In x (updateRegistration registrations (id reg) updates) ->
  x = spread reg updates \/ (In x registrations /\ id x <> id reg).
Proof.
  intros Hnd Hreg Hx. apply updateRegistration_In in Hx.
  destruct Hx as [r [Hr ->]].
  destruct (String.eqb_spec (id r) (id reg)) as [Heq|Hne].
  - left. f_equal. now apply (distinct_ids_inj registrations).
  - right. now split.
Qed.

(** ** The e-ticket *)

(** The four fields the code is computed from. *)
Lemma generateQRCode_fields (a b : Registration) :
  id a = id b -> name a = name b -> ticketType a = ticketType b ->
  guestName a = guestName b ->
  generateQRCode a = generateQRCode b.
Proof.
  intros Hid Hname Htype Hguest.
  unfold generateQRCode, qrData.
  now rewrite Hid, Hname, Htype, Hguest.
Qed.

(** The update of a ticket keeps the four fields. *)
Lemma spread_ticketUpdates_fields (reg : Registration) (code : string) :
  let reg' := spread reg (ticketUpdates code) in
  id reg' = id reg /\ name reg' = name reg
  /\ ticketType reg' = ticketType reg /\ guestName reg' = guestName reg
  /\ ticketQR reg' = Some code /\ emailSent reg' = Some true.
Proof. simpl. repeat split. Qed.

Lemma sendETicket_ticket (registrations : list Registration)
    (registration x : Registration) :
  In x (fst (sendETicket registrations registration)) ->
  id x = id registration ->
  ticketQR x = Some (generateQRCode registration)
  /\ emailSent x = Some true.
Proof.
  unfold sendETicket. simpl. intros Hx Hid.
  apply updateRegistration_In in Hx. destruct Hx as [reg [_ ->]].
  destruct (String.eqb_spec (id reg) (id registration)) as [_|Hne].
  - split; reflexivity.
  - contradiction.
Qed.

(** C10.  The code attached by [sendETicket] is a function of [id],
    [name], [ticketType] and [guestName] alone: two calls, on any two
    stores, for records that agree on these four fields attach the same
    [ticketQR] to the records they update and return the same [qrCode],
    whatever the other fields hold. *)
Theorem ticketQR_depends_on_four_fields
    (registrations1 registrations2 : list Registration)
    (reg1 reg2 : Registration) :
  id reg1 = id reg2 -> name reg1 = name reg2 ->
  ticketType reg1 = ticketType reg2 -> guestName reg1 = guestName reg2 ->
  generateQRCode reg1 = generateQRCode reg2
  /\ qrCode (snd (sendETicket registrations1 reg1))
     = qrCode (snd (sendETicket registrations2 reg2))
  /\ (forall x1 x2,
        In x1 (fst (sendETicket registrations1 reg1)) -> id x1 = id reg1 ->
        In x2 (fst (sendETicket registrations2 reg2)) -> id x2 = id reg2 ->
        ticketQR x1 = ticketQR x2
        /\ ticketQR x1 = Some (generateQRCode reg1)).
Proof.
  intros Hid Hname Htype Hguest.
  pose proof (generateQRCode_fields reg1 reg2 Hid Hname Htype Hguest) as Hqr.
  split; [exact Hqr|]. split; [exact Hqr|].
  intros x1 x2 H1 Hid1 H2 Hid2.
  destruct (sendETicket_ticket _ _ _ H1 Hid1) as [Hq1 _].
  destruct (sendETicket_ticket _ _ _ H2 Hid2) as [Hq2 _].
  split; [|exact Hq1]. now rewrite Hq1, Hq2, Hqr.
Qed.




(** ** Registration workflow *)


Lemma ticketPrice_positive (t : TicketType) : 0 < ticketPrice t.
Proof. destruct t; simpl; lia. Qed.

(** The scenarios of the specification. *)
Example register_solo_cash :
  register [] clock0 cashStep
  = inr [ {| id := "1700000000000"; name := "Ada"; phone := "0800";
             email := "ada@example.com"; ticketType := solo;
             guestName := None;
             totalDue := 2000; totalPaid := 2000; balance := 0;
             paymentMethod := Some cash; status := paid;
             transactionRef := None; receiptImage := None;
             createdAt := "2023-11-14T22:13:20.000Z";
             ticketQR := None; emailSent := None; checkedIn := None |} ].
Proof. reflexivity. Qed.

Example register_guest_transfer :
  register [] clock1 transferStep = inr [pendingGuest].
Proof. reflexivity. Qed.

Example register_wrong_pin :
  register [sentTicket] clock1 wrongPinStep = inl InvalidStaffPin.
Proof. reflexivity. Qed.



(** ** Payment ledger *)

(** The scenario of the specification: 1000 then 2000 on a pending record
    owing 3000. *)
Example partial_then_full :
  handleAddPartialPayment [pendingGuest] pendingGuest (Num 1000)
  = Some [spread pendingGuest (paymentUpdates pendingGuest 1000)]
  /\ (let r := spread pendingGuest (paymentUpdates pendingGuest 1000) in
      totalPaid r = 1000 /\ balance r = 2000 /\ status r = pending
      /\ (let r' := spread r (paymentUpdates r 2000) in
          handleAddPartialPayment [r] r (Num 2000) = Some [r']
          /\ totalPaid r' = 3000 /\ balance r' = 0 /\ status r' = paid)).
Proof. repeat split. Qed.

(** No clamping: 2500 paid on a solo ticket leaves a balance of -500. *)
Example overpayment_goes_negative :
  handleAddPartialPayment [unpaidSolo] unpaidSolo (Num 2500)
  = Some [overpaid]
  /\ balance overpaid = -500 /\ status overpaid = paid.
Proof. repeat split. Qed.


(** The update of [handleApprove] written over any record. *)
Lemma spread_approveUpdates (r reg : Registration) :
  let r' := spread r (approveUpdates reg) in
  totalPaid r' = totalDue reg /\ balance r' = 0 /\ status r' = paid
  /\ totalDue r' = totalDue r /\ id r' = id r
  /\ checkedIn r' = checkedIn r.
Proof. simpl. repeat split. Qed.

(** The scenario of the specification, for the update [handleApprove]
    saves at once. *)
Example approve_pending_guest :
  savedAtOnce (handleApprove [pendingGuest] pendingGuest)
  = [ {| id := "1700000005000"; name := "Bola"; phone := "0801";
         email := "bola@example.com"; ticketType := guest;
         guestName := Some "Chidi";
         totalDue := 3000; totalPaid := 3000; balance := 0;
         paymentMethod := Some transfer; status := paid;
         transactionRef := Some "TRF1";
         receiptImage := Some "data:image/png;base64,iVBORw0KGgo=";
         createdAt := "2023-11-14T22:13:25.000Z";
         ticketQR := None; emailSent := None; checkedIn := None |} ].
Proof. reflexivity. Qed.

(** The callback scheduled by [handleApprove] saves the list of the
    render in which Approve was pressed with the ticket written on it:
    the ledger fields of the record are the ones it had before the
    approval. *)
Lemma approve_timer_saves_captured_list (registrations : list Registration)
    (reg : Registration) (n : nat) :
  nth_error registrations n = Some reg ->
  exists reg', nth_error (savedByTimer (handleApprove registrations reg)) n
               = Some reg'
               /\ status reg' = status reg
               /\ totalPaid reg' = totalPaid reg
               /\ balance reg' = balance reg
               /\ emailSent reg' = Some true.
Proof.
  intros Hn. exists (spread reg (ticketUpdates (generateQRCode reg))).
  split; [|repeat split].
  unfold handleApprove, handleSendETicket, sendETicket. simpl.
  rewrite updateRegistration_nth, Hn. simpl. now rewrite String.eqb_refl.
Qed.

Example approve_timer_pending_guest :
  map status (savedAtOnce (handleApprove [pendingGuest] pendingGuest))
  = [paid]
  /\ map status (savedByTimer (handleApprove [pendingGuest] pendingGuest))
     = [pending]
  /\ map balance (savedByTimer (handleApprove [pendingGuest] pendingGuest))
     = [3000]
  /\ map emailSent (savedByTimer (handleApprove [pendingGuest] pendingGuest))
     = [Some true].
Proof. repeat split. Qed.



(** ** Check-in lookup *)



(** The scenario of the specification: a balance of 500 is carried by the
    error. *)
Example checkIn_balance_500 :
  checkIn [ {| id := "7"; name := "Efe"; phone := "0803";
               email := "efe@example.com"; ticketType := solo;
               guestName := None;
               totalDue := 2000; totalPaid := 1500; balance := 500;
               paymentMethod := Some transfer; status := pending;
               transactionRef := Some "TRF3";
               receiptImage := Some "data:image/png;base64,iVBORw0KGgo=";
               createdAt := "2023-11-14T22:13:30.000Z";
               ticketQR := None; emailSent := None; checkedIn := None |} ]
          "7"
  = Refused (PaymentNotComplete 500).
Proof. reflexivity. Qed.



(** ** Invariants of the store *)

Lemma saveRegistrations_cases (writeOk : bool)
    (registrations saved : list Registration) (P : list Registration -> Prop) :
  P registrations -> P saved ->
  P (saveRegistrations writeOk registrations saved).
Proof. destruct writeOk; simpl; auto. Qed.

Lemma newRegistration_ledger (c : Clock) (s : PaymentStep) :
  balanced (newRegistration c s) /\ statusDerived (newRegistration c s).
Proof.
  pose proof (ticketPrice_positive (form_ticketType (formData s))) as Hpos.
  unfold balanced, statusDerived, newRegistration. simpl.
  destruct (isCash (step_paymentMethod s)); simpl;
    repeat split; intros; try lia; try reflexivity; try discriminate.
Qed.

Lemma handlePayment_created (c : Clock) (s : PaymentStep)
    (registration : Registration) :
  handlePayment c s = inr registration ->
  registration = newRegistration c s.
Proof.
  unfold handlePayment. destruct (paymentError s); congruence.
Qed.

Lemma handleAddPartialPayment_saved (registrations saved : list Registration)
    (reg : Registration) (parsed : ParsedAmount) :
  handleAddPartialPayment registrations reg parsed = Some saved ->
  exists amount, parsed = Num amount /\ 0 < amount
    /\ saved = updateRegistration registrations (id reg)
                                  (paymentUpdates reg amount).
Proof.
  destruct parsed as [|amount]; simpl; [discriminate|].
  destruct (Z.leb_spec amount 0); [discriminate|].
  intros [= <-]. exists amount. auto.
Qed.

Lemma checkIn_saved (registrations saved : list Registration)
    (manualId : string) :
  checkIn registrations manualId = CheckedIn saved ->
  exists found,
    find (fun r => String.eqb (id r) (trim manualId)) registrations
    = Some found
    /\ balance found <= 0 /\ isTrue (checkedIn found) = false
    /\ saved = updateRegistration registrations (id found) checkInUpdates.
Proof.
  unfold checkIn, handleManualSearch.
  destruct (find _ registrations) as [found|]; [|discriminate].
  destruct (Z.ltb_spec 0 (balance found)); [discriminate|].
  unfold renderScanResult.
  destruct (isTrue (checkedIn found)) eqn:E; [discriminate|].
  intros [= <-]. exists found. auto.
Qed.

Lemma keepsLedger_ticketUpdates (code : string) :
  keepsLedger (ticketUpdates code).
Proof. repeat split. Qed.

Lemma keepsLedger_checkInUpdates : keepsLedger checkInUpdates.
Proof. repeat split. Qed.

(** An update outside the ledger keeps the invariant, whatever the
    identifier it is saved for. *)
Lemma wellFormed_keepsLedger (registrations : list Registration)
    (i : string) (updates : Updates) :
  keepsLedger updates ->
  wellFormed registrations ->
  wellFormed (updateRegistration registrations i updates).
Proof.
  intros (Hid & Hdue & Hpaid & Hbal & Hstatus) (Hnd & Hb & Hs).
  split; [|split].
  - now rewrite updateRegistration_ids.
  - apply updateRegistration_Forall; [exact Hb|].
    intros reg Hin _. rewrite Forall_forall in Hb. specialize (Hb reg Hin).
    unfold balanced in *. simpl. now rewrite Hdue, Hpaid, Hbal.
  - apply updateRegistration_Forall; [exact Hs|].
    intros reg Hin _. rewrite Forall_forall in Hs. specialize (Hs reg Hin).
    unfold statusDerived in *. simpl. now rewrite Hbal, Hstatus.
Qed.

(** An update of the ledger of one record of the store keeps the invariant
    when the updated record satisfies it. *)
Lemma wellFormed_update_record (registrations : list Registration)
    (reg : Registration) (updates : Updates) :
  u_id updates = None ->
  In reg registrations ->
  balanced (spread reg updates) -> statusDerived (spread reg updates) ->
  wellFormed registrations ->
  wellFormed (updateRegistration registrations (id reg) updates).
Proof.
  intros Hid Hin Hb' Hs' (Hnd & Hb & Hs).
  split; [|split].
  - now rewrite updateRegistration_ids.
  - apply updateRegistration_Forall; [exact Hb|].
    intros r Hr Heq.
    now rewrite (distinct_ids_inj registrations r reg Hnd Hr Hin Heq).
  - apply updateRegistration_Forall; [exact Hs|].
    intros r Hr Heq.
    now rewrite (distinct_ids_inj registrations r reg Hnd Hr Hin Heq).
Qed.

Lemma wellFormed_approve (registrations : list Registration)
    (reg : Registration) :
  In reg registrations ->
  wellFormed registrations ->
  wellFormed (savedAtOnce (handleApprove registrations reg)).
Proof.
  intros Hin Hwf. unfold handleApprove. simpl.
  apply wellFormed_update_record; auto.
  - unfold balanced. simpl. lia.
  - unfold statusDerived. simpl.
    repeat split; intros; try lia; try reflexivity; discriminate.
Qed.

Lemma wellFormed_payment (registrations : list Registration)
    (reg : Registration) (amount : Z) :
  In reg registrations -> 0 < balance reg -> 0 < amount ->
  wellFormed registrations ->
  wellFormed (updateRegistration registrations (id reg)
                                 (paymentUpdates reg amount)).
Proof.
  intros Hin Hbal Hpos Hwf.
  assert (Hpending : status reg = pending).
  { destruct Hwf as (_ & _ & Hs). rewrite Forall_forall in Hs.
    now apply (Hs reg Hin). }
  apply wellFormed_update_record; auto.
  - unfold balanced. simpl. lia.
  - unfold statusDerived. simpl. rewrite Hpending.
    destruct (Z.leb_spec (totalDue reg - (totalPaid reg + amount)) 0);
      repeat split; intros; try lia; try reflexivity; discriminate.
Qed.

Lemma wellFormed_register (registrations : list Registration)
    (c : Clock) (s : PaymentStep) :
  ~ In (id (newRegistration c s)) (map id registrations) ->
  wellFormed registrations ->
  wellFormed (addRegistration registrations (newRegistration c s)).
Proof.
  intros Hfresh (Hnd & Hb & Hs).
  destruct (newRegistration_ledger c s) as [Hb' Hs'].
  unfold addRegistration. split; [|split].
  - rewrite map_app. simpl. apply NoDup_app; auto.
    + constructor; [intros []|constructor].
    + intros a Ha [<-|[]]. contradiction.
  - apply Forall_app. split; auto.
  - apply Forall_app. split; auto.
Qed.

(** Every operation keeps the invariant of the store. *)
Lemma step_wellFormed (registrations registrations' : list Registration) :
  step registrations registrations' ->
  wellFormed registrations -> wellFormed registrations'.
Proof.
  intros Hstep Hwf.
  destruct Hstep as
    [c s registration writeOk _ _ Hpay Hfresh
    |reg writeOk Hin _
    |reg writeOk writeOk' Hin _
    |reg parsed saved writeOk Hin Hbal Hsaved
    |reg writeOk Hin _ _
    |manualId saved writeOk Hsaved].
  - apply saveRegistrations_cases; [exact Hwf|].
    apply handlePayment_created in Hpay. subst registration.
    now apply wellFormed_register.
  - apply saveRegistrations_cases; [exact Hwf|].
    now apply wellFormed_approve.
  - apply saveRegistrations_cases.
    + apply saveRegistrations_cases; [exact Hwf|].
      now apply wellFormed_approve.
    + unfold handleApprove, handleSendETicket, sendETicket. simpl.
      apply wellFormed_keepsLedger; [apply keepsLedger_ticketUpdates|].
      exact Hwf.
  - apply saveRegistrations_cases; [exact Hwf|].
    apply handleAddPartialPayment_saved in Hsaved.
    destruct Hsaved as (amount & _ & Hpos & ->).
    now apply wellFormed_payment.
  - apply saveRegistrations_cases; [exact Hwf|].
    unfold handleSendETicket, sendETicket. simpl.
    apply wellFormed_keepsLedger; [apply keepsLedger_ticketUpdates|].
    exact Hwf.
  - apply saveRegistrations_cases; [exact Hwf|].
    apply checkIn_saved in Hsaved. destruct Hsaved as (found & _ & _ & _ & ->).
    apply wellFormed_keepsLedger; [apply keepsLedger_checkInUpdates|].
    exact Hwf.
Qed.

Lemma reachable_wellFormed (registrations : list Registration) :
  reachable registrations -> wellFormed registrations.
Proof.
  induction 1 as [|regs regs' _ IH Hstep].
  - repeat split; constructor.
  - now apply (step_wellFormed regs).
Qed.


(** C2.  In every store the operations can produce, the status of every
    record is paid if and only if its balance is at most 0, and pending
    otherwise. *)
Theorem status_follows_balance (registrations : list Registration) :
  reachable registrations ->
  Forall (fun reg => (status reg = paid <-> balance reg <= 0)
                     /\ (status reg = pending <-> 0 < balance reg))
         registrations.
Proof.
  intros Hreach. now destruct (reachable_wellFormed _ Hreach) as (_ & _ & Hs).
Qed.


Lemma status_follows_balance_witness :
  Forall (fun reg => (status reg = paid <-> balance reg <= 0)
                     /\ (status reg = pending <-> 0 < balance reg))
         [paidSolo; spread pendingGuest
                      (ticketUpdates (generateQRCode pendingGuest))].
Proof.
  apply (status_follows_balance
           [paidSolo; spread pendingGuest
                        (ticketUpdates (generateQRCode pendingGuest))]).
  reach_sample.
Defined.

(** ** The check-in flag *)










(** A second press of the Check In button, on the panel of the first
    look-up, saves the list the first press saved. *)
Lemma handleCheckIn_again (registrations : list Registration)
    (found : Registration) :
  handleCheckIn (updateRegistration registrations (id found) checkInUpdates)
                (Some found)
  = handleCheckIn registrations (Some found).
Proof.
  unfold handleCheckIn. f_equal. now apply updateRegistration_twice.
Qed.



(** The welcome panel after a check-in, on the sample store. *)
Example checkIn_twice :
  checkIn [paidSolo; pendingGuest] "1700000000000"
  = CheckedIn [spread paidSolo checkInUpdates; pendingGuest]
  /\ checkIn [spread paidSolo checkInUpdates; pendingGuest] "1700000000000"
     = AlreadyCheckedIn (spread paidSolo checkInUpdates).
Proof. split; reflexivity. Qed.

Lemma ticketQR_depends_on_four_fields_witness :
  let approved := spread pendingGuest (approveUpdates pendingGuest) in
  generateQRCode pendingGuest = generateQRCode approved
  /\ qrCode (snd (sendETicket [paidSolo; pendingGuest] pendingGuest))
     = qrCode (snd (sendETicket [approved] approved))
  /\ (forall x1 x2,
        In x1 (fst (sendETicket [paidSolo; pendingGuest] pendingGuest)) ->
        id x1 = id pendingGuest ->
        In x2 (fst (sendETicket [approved] approved)) ->
        id x2 = id approved ->
        ticketQR x1 = ticketQR x2
        /\ ticketQR x1 = Some (generateQRCode pendingGuest)).
Proof.
  apply (ticketQR_depends_on_four_fields
           [paidSolo; pendingGuest]
           [spread pendingGuest (approveUpdates pendingGuest)]
           pendingGuest
           (spread pendingGuest (approveUpdates pendingGuest)));
    reflexivity.
Defined.

(** * Further properties of the operations *)

(** ** What never changes in a record *)

Lemma keepsCore_approveUpdates (reg : Registration) :
  keepsCore (approveUpdates reg).
Proof. repeat split. Qed.

Lemma keepsCore_paymentUpdates (reg : Registration) (amount : Z) :
  keepsCore (paymentUpdates reg amount).
Proof. repeat split. Qed.

Lemma keepsCore_ticketUpdates (code : string) : keepsCore (ticketUpdates code).
Proof. repeat split. Qed.

Lemma keepsCore_checkInUpdates : keepsCore checkInUpdates.
Proof. repeat split. Qed.



Lemma spread_sameCore (reg : Registration) (updates : Updates) :
  keepsCore updates -> sameCore (spread reg updates) reg.
Proof.
  unfold keepsCore, sameCore. intros H. decompose [and] H. simpl.
  repeat match goal with E : _ = None |- _ => rewrite E; clear E end.
  repeat split.
Qed.





(** ** What every record of the store satisfies *)

#[local] Arguments generateQRCode : simpl never.

Lemma handleSubmit_accepts (f : FormData) :
  handleSubmit f = None ->
  truthy (form_name f) = true /\ truthy (form_phone f) = true
  /\ truthy (form_email f) = true
  /\ (form_ticketType f = guest -> truthy (form_guestName f) = true).
Proof.
  unfold handleSubmit.
  destruct (truthy (form_name f)), (truthy (form_phone f)),
    (truthy (form_email f)); simpl; try discriminate.
  destruct (form_ticketType f); [intros _; repeat split; discriminate|].
  destruct (truthy (form_guestName f)); simpl; [|discriminate].
  intros _. repeat split.
Qed.

Lemma paymentError_none (s : PaymentStep) :
  paymentError s = None ->
  match step_paymentMethod s with
  | Some cash => staffPin s = "1234"
  | Some transfer =>
      truthy (trim (step_transactionRef s)) = true
      /\ truthyOpt (step_receiptImage s) = true
  | None => True
  end.
Proof.
  unfold paymentError. destruct (step_paymentMethod s) as [[|]|].
  - destruct (String.eqb_spec (staffPin s) "1234"); simpl;
      [auto|discriminate].
  - destruct (truthy (trim (step_transactionRef s))); simpl; [|discriminate].
    destruct (truthyOpt (step_receiptImage s)); simpl; [auto|discriminate].
  - auto.
Qed.

Lemma handlePayment_accepts (c : Clock) (s : PaymentStep)
    (registration : Registration) :
  handlePayment c s = inr registration -> paymentError s = None.
Proof.
  unfold handlePayment. destruct (paymentError s); [discriminate|reflexivity].
Qed.

Lemma newRegistration_sound (c : Clock) (s : PaymentStep) :
  handleSubmit (formData s) = None ->
  submitDisabled s = false ->
  paymentError s = None ->
  soundRecord (newRegistration c s).
Proof.
  intros Hsubmit Hbutton Hpay.
  apply handleSubmit_accepts in Hsubmit.
  destruct Hsubmit as (Hname & Hphone & Hemail & Hguest).
  apply paymentError_none in Hpay.
  split; [|split; [|split]].
  - unfold fromValidForm, newRegistration. simpl.
    repeat (split; [assumption|]). split; [|reflexivity].
    destruct (form_ticketType (formData s)); [reflexivity|].
    exists (form_guestName (formData s)). split; [reflexivity|now apply Hguest].
  - unfold paymentEvidence, newRegistration. simpl.
    unfold submitDisabled in Hbutton.
    destruct (step_paymentMethod s) as [[|]|]; simpl;
      [now split| |discriminate].
    destruct Hpay as [Href Himage].
    destruct (step_receiptImage s) as [image|]; [|discriminate].
    exists (step_transactionRef s), image. auto.
  - left. split; reflexivity.
  - split; [now left|discriminate].
Qed.

Lemma fromValidForm_sameCore (a b : Registration) :
  sameCore a b -> fromValidForm b -> fromValidForm a.
Proof.
  unfold sameCore, fromValidForm. intros H. decompose [and] H.
  repeat match goal with E : _ a = _ b |- _ => rewrite E; clear E end.
  auto.
Qed.

Lemma paymentEvidence_sameCore (a b : Registration) :
  sameCore a b -> paymentEvidence b -> paymentEvidence a.
Proof.
  unfold sameCore, paymentEvidence. intros H. decompose [and] H.
  repeat match goal with E : _ a = _ b |- _ => rewrite E; clear E end.
  auto.
Qed.

Lemma generateQRCode_sameCore (a b : Registration) :
  sameCore a b -> generateQRCode a = generateQRCode b.
Proof.
  unfold sameCore. intros H. decompose [and] H.
  now apply generateQRCode_fields.
Qed.

Lemma ticketConsistent_sent (reg : Registration) :
  ticketConsistent (spread reg (ticketUpdates (generateQRCode reg))).
Proof.
  right. split; reflexivity.
Qed.

Lemma soundRecord_spread (reg : Registration) (updates : Updates) :
  keepsCore updates ->
  soundRecord reg ->
  ticketConsistent (spread reg updates) ->
  checkedInPaid (spread reg updates) ->
  soundRecord (spread reg updates).
Proof.
  intros Hcore (Hform & Hpay & _ & _) Hticket Hin.
  pose proof (spread_sameCore reg updates Hcore) as Hsame.
  split; [now apply (fromValidForm_sameCore _ reg)|].
  split; [now apply (paymentEvidence_sameCore _ reg)|].
  now split.
Qed.

Lemma Forall_update_one (P : Registration -> Prop)
    (registrations : list Registration) (reg : Registration)
    (updates : Updates) :
  NoDup (map id registrations) ->
  In reg registrations ->
  Forall P registrations ->
  P (spread reg updates) ->
  Forall P (updateRegistration registrations (id reg) updates).
Proof.
  intros Hnd Hin Hall Hnew.
  apply updateRegistration_Forall; [exact Hall|].
  intros r Hr Heq.
  now rewrite (distinct_ids_inj registrations r reg Hnd Hr Hin Heq).
Qed.

Lemma soundRecord_approve (reg : Registration) :
  soundRecord reg -> soundRecord (spread reg (approveUpdates reg)).
Proof.
  intros Hsound. pose proof Hsound as (_ & _ & Hticket & Hflag & _).
  apply soundRecord_spread;
    [apply keepsCore_approveUpdates|exact Hsound|exact Hticket|].
  split; [exact Hflag|]. simpl. intros _. lia.
Qed.

Lemma soundRecord_payment (reg : Registration) (amount : Z) :
  0 < balance reg ->
  soundRecord reg -> soundRecord (spread reg (paymentUpdates reg amount)).
Proof.
  intros Hbal Hsound. pose proof Hsound as (_ & _ & Hticket & Hflag & Hpaid).
  apply soundRecord_spread;
    [apply keepsCore_paymentUpdates|exact Hsound|exact Hticket|].
  split; [exact Hflag|]. simpl. intros Hin. specialize (Hpaid Hin). lia.
Qed.

Lemma soundRecord_ticket (reg : Registration) :
  soundRecord reg ->
  soundRecord (spread reg (ticketUpdates (generateQRCode reg))).
Proof.
  intros Hsound. pose proof Hsound as (_ & _ & _ & Hflag).
  apply soundRecord_spread;
    [apply keepsCore_ticketUpdates|exact Hsound
    |apply ticketConsistent_sent|exact Hflag].
Qed.

Lemma soundRecord_checkIn (reg : Registration) :
  balance reg <= 0 ->
  soundRecord reg -> soundRecord (spread reg checkInUpdates).
Proof.
  intros Hbal Hsound. pose proof Hsound as (_ & _ & Hticket & _).
  apply soundRecord_spread;
    [apply keepsCore_checkInUpdates|exact Hsound|exact Hticket|].
  split; [now right|]. simpl. intros _. exact Hbal.
Qed.

Lemma step_soundRecord (registrations registrations' : list Registration) :
  step registrations registrations' ->
  wellFormed registrations ->
  Forall soundRecord registrations -> Forall soundRecord registrations'.
Proof.
  intros Hstep (Hnd & _ & _) Hall.
  assert (Hof : forall reg, In reg registrations -> soundRecord reg)
    by (now apply Forall_forall).
  destruct Hstep as
    [c s registration writeOk Hsubmit Hbutton Hpay _
    |reg writeOk Hin _
    |reg writeOk writeOk' Hin _
    |reg parsed saved writeOk Hin Hbal Hsaved
    |reg writeOk Hin _ _
    |manualId saved writeOk Hsaved].
  - apply saveRegistrations_cases; [exact Hall|].
    pose proof (handlePayment_accepts _ _ _ Hpay) as Hnone.
    apply handlePayment_created in Hpay. subst registration.
    apply Forall_app. split; [exact Hall|].
    constructor; [now apply newRegistration_sound|constructor].
  - apply saveRegistrations_cases; [exact Hall|].
    apply Forall_update_one; auto using soundRecord_approve.
  - apply saveRegistrations_cases.
    + apply saveRegistrations_cases; [exact Hall|].
      apply Forall_update_one; auto using soundRecord_approve.
    + apply Forall_update_one; auto using soundRecord_ticket.
  - apply saveRegistrations_cases; [exact Hall|].
    apply handleAddPartialPayment_saved in Hsaved.
    destruct Hsaved as (amount & _ & _ & ->).
    apply Forall_update_one; auto using soundRecord_payment.
  - apply saveRegistrations_cases; [exact Hall|].
    apply Forall_update_one; auto using soundRecord_ticket.
  - apply saveRegistrations_cases; [exact Hall|].
    apply checkIn_saved in Hsaved.
    destruct Hsaved as (found & Hfind & Hbal & _ & ->).
    apply find_some in Hfind. destruct Hfind as [Hin _].
    apply Forall_update_one; auto using soundRecord_checkIn.
Qed.

Lemma reachable_soundRecord (registrations : list Registration) :
  reachable registrations -> Forall soundRecord registrations.
Proof.
  induction 1 as [|regs regs' Hreach IH Hstep].
  - constructor.
  - apply (step_soundRecord regs); auto using reachable_wellFormed.
Qed.

(** X2.  Every record of a store the operations can produce carries what
    [handleSubmit] checked: a name, a phone number and an e-mail that are
    not empty, no guest name on a solo ticket and a non-empty one on a
    guest ticket; and the amount due is the price of its ticket type. *)
Theorem stored_records_pass_the_form (registrations : list Registration) :
  reachable registrations ->
  Forall (fun reg =>
            truthy (name reg) = true /\ truthy (phone reg) = true
            /\ truthy (email reg) = true
            /\ match ticketType reg with
               | solo => guestName reg = None
               | guest => exists g, guestName reg = Some g /\ truthy g = true
               end
            /\ totalDue reg = ticketPrice (ticketType reg))
         registrations.
Proof.
  intros Hreach. apply reachable_soundRecord in Hreach.
  eapply Forall_impl; [|exact Hreach]. intros reg (Hform & _). exact Hform.
Qed.

Lemma stored_records_pass_the_form_witness :
  Forall (fun reg =>
            truthy (name reg) = true /\ truthy (phone reg) = true
            /\ truthy (email reg) = true
            /\ match ticketType reg with
               | solo => guestName reg = None
               | guest => exists g, guestName reg = Some g /\ truthy g = true
               end
            /\ totalDue reg = ticketPrice (ticketType reg))
         [paidSolo; spread pendingGuest
                      (ticketUpdates (generateQRCode pendingGuest))].
Proof.
  apply (stored_records_pass_the_form
           [paidSolo; spread pendingGuest
                        (ticketUpdates (generateQRCode pendingGuest))]).
  reach_sample.
Defined.

(** X3.  Every record of a store the operations can produce has a payment
    method, cash or transfer; a cash record has neither transaction
    reference nor receipt; a transfer record has a transaction reference
    that is not blank and a receipt that is not empty. *)
Theorem stored_records_carry_payment_evidence
    (registrations : list Registration) :
  reachable registrations ->
  Forall (fun reg =>
            match paymentMethod reg with
            | Some cash =>
                transactionRef reg = None /\ receiptImage reg = None
            | Some transfer =>
                exists ref image,
                  transactionRef reg = Some ref /\ truthy (trim ref) = true
                  /\ receiptImage reg = Some image /\ truthy image = true
            | None => False
            end)
         registrations.
Proof.
  intros Hreach. apply reachable_soundRecord in Hreach.
  eapply Forall_impl; [|exact Hreach]. intros reg (_ & Hpay & _). exact Hpay.
Qed.

Lemma stored_records_carry_payment_evidence_witness :
  Forall (fun reg =>
            match paymentMethod reg with
            | Some cash =>
                transactionRef reg = None /\ receiptImage reg = None
            | Some transfer =>
                exists ref image,
                  transactionRef reg = Some ref /\ truthy (trim ref) = true
                  /\ receiptImage reg = Some image /\ truthy image = true
            | None => False
            end)
         [paidSolo; spread pendingGuest
                      (ticketUpdates (generateQRCode pendingGuest))].
Proof.
  apply (stored_records_carry_payment_evidence
           [paidSolo; spread pendingGuest
                        (ticketUpdates (generateQRCode pendingGuest))]).
  reach_sample.
Defined.



(** X5.  In every store the operations can produce, the e-ticket fields
    of a record go together: either [ticketQR] and [emailSent] are both
    unset, or [emailSent] is true and [ticketQR] is the code
    [generateQRCode] computes from the record itself, so a stored code
    never names another ticket. *)
Theorem stored_ticket_names_its_record
    (registrations : list Registration) :
  reachable registrations ->
  Forall (fun reg =>
            (ticketQR reg = None /\ emailSent reg = None)
            \/ (ticketQR reg = Some (generateQRCode reg)
                /\ emailSent reg = Some true))
         registrations.
Proof.
  intros Hreach. apply reachable_soundRecord in Hreach.
  eapply Forall_impl; [|exact Hreach].
  intros reg (_ & _ & Hticket & _). exact Hticket.
Qed.

Lemma stored_ticket_names_its_record_witness :
  Forall (fun reg =>
            (ticketQR reg = None /\ emailSent reg = None)
            \/ (ticketQR reg = Some (generateQRCode reg)
                /\ emailSent reg = Some true))
         [paidSolo; spread pendingGuest
                      (ticketUpdates (generateQRCode pendingGuest))].
Proof.
  apply (stored_ticket_names_its_record
           [paidSolo; spread pendingGuest
                        (ticketUpdates (generateQRCode pendingGuest))]).
  reach_sample.
Defined.

(** ** The totals of the dashboard *)





(** ** The approval and its scheduled e-ticket *)

(** X7.  The approval does not outlast its own callback.  Right after
    Approve is pressed the store holds the record as paid with balance 0;
    once the callback scheduled for half a second later has saved, the
    store is the list from before the approval with only [ticketQR] and
    [emailSent] written on the record: the record is pending again with
    its old [totalPaid] and [balance], and Approve is offered again. *)
Theorem approval_is_overwritten_by_its_callback
    (registrations : list Registration) (reg : Registration) (n : nat) :
  nth_error registrations n = Some reg ->
  approveOffered reg = true ->
  let atOnce := saveRegistrations true registrations
                  (savedAtOnce (handleApprove registrations reg)) in
  let later := saveRegistrations true atOnce
                 (savedByTimer (handleApprove registrations reg)) in
  (exists paidReg, nth_error atOnce n = Some paidReg
                   /\ status paidReg = paid /\ balance paidReg = 0
                   /\ totalPaid paidReg = totalDue reg)
  /\ later = updateRegistration registrations (id reg)
                                (ticketUpdates (generateQRCode reg))
  /\ (exists reg', nth_error later n = Some reg'
                   /\ status reg' = pending
                   /\ totalPaid reg' = totalPaid reg
                   /\ balance reg' = balance reg
                   /\ emailSent reg' = Some true
                   /\ ticketQR reg' = Some (generateQRCode reg)
                   /\ approveOffered reg' = true).
Proof.
  intros Hn Hoffered atOnce later.
  assert (Hpending : status reg = pending).
  { unfold approveOffered in Hoffered.
    destruct (status reg); [discriminate|reflexivity]. }
  split; [|split].
  - exists (spread reg (approveUpdates reg)). split; [|repeat split].
    unfold atOnce, handleApprove. simpl.
    rewrite updateRegistration_nth, Hn. simpl. now rewrite String.eqb_refl.
  - reflexivity.
  - exists (spread reg (ticketUpdates (generateQRCode reg))).
    split; [|repeat split; assumption].
    unfold later, handleApprove, handleSendETicket, sendETicket. simpl.
    rewrite updateRegistration_nth, Hn. simpl. now rewrite String.eqb_refl.
Qed.

Lemma approval_is_overwritten_by_its_callback_witness :
  let atOnce := saveRegistrations true [paidSolo; pendingGuest]
                  (savedAtOnce
                     (handleApprove [paidSolo; pendingGuest] pendingGuest)) in
  let later := saveRegistrations true atOnce
                 (savedByTimer
                    (handleApprove [paidSolo; pendingGuest] pendingGuest)) in
  (exists paidReg, nth_error atOnce 1 = Some paidReg
                   /\ status paidReg = paid /\ balance paidReg = 0
                   /\ totalPaid paidReg = totalDue pendingGuest)
  /\ later = updateRegistration [paidSolo; pendingGuest] (id pendingGuest)
                                (ticketUpdates (generateQRCode pendingGuest))
  /\ (exists reg', nth_error later 1 = Some reg'
                   /\ status reg' = pending
                   /\ totalPaid reg' = totalPaid pendingGuest
                   /\ balance reg' = balance pendingGuest
                   /\ emailSent reg' = Some true
                   /\ ticketQR reg' = Some (generateQRCode pendingGuest)
                   /\ approveOffered reg' = true).
Proof.
  apply (approval_is_overwritten_by_its_callback
           [paidSolo; pendingGuest] pendingGuest 1%nat); reflexivity.
Defined.

(** ** The Submit button and the guards of [handlePayment] *)



(** ** Partial payments in a row *)




(** ** Looking a ticket up *)

Lemma list_ascii_of_string_app (a b : string) :
  list_ascii_of_string (a ++ b)
  = (list_ascii_of_string a ++ list_ascii_of_string b)%list.
Proof.
  induction a as [|c a IH]; simpl; [reflexivity|]. now rewrite IH.
Qed.

Lemma dropWhiteSpace_blank (l : list ascii) :
  forallb isWhiteSpace l = true -> dropWhiteSpace l = [].
Proof.
  induction l as [|c l IH]; simpl; [reflexivity|].
  destruct (isWhiteSpace c); simpl; [exact IH|discriminate].
Qed.

Lemma dropWhiteSpace_app (l post : list ascii) :
  dropWhiteSpace (l ++ post)
  = match dropWhiteSpace l with
    | [] => dropWhiteSpace post
    | c :: rest => ((c :: rest) ++ post)%list
    end.
Proof.
  induction l as [|c l IH]; simpl; [reflexivity|].
  destruct (isWhiteSpace c); [exact IH|reflexivity].
Qed.

Lemma forallb_rev (f : ascii -> bool) (l : list ascii) :
  forallb f l = true -> forallb f (rev l) = true.
Proof.
  rewrite !forallb_forall. intros H x Hx. apply H. now apply in_rev.
Qed.

(** White space around a text does not change what [trim] returns. *)
Lemma trim_padded (pre s post : string) :
  blank pre = true -> blank post = true ->
  trim (pre ++ s ++ post) = trim s.
Proof.
  unfold blank, trim. intros Hpre Hpost. f_equal. f_equal.
  rewrite !list_ascii_of_string_app.
  set (p := list_ascii_of_string pre) in *.
  set (l := list_ascii_of_string s).
  set (q := list_ascii_of_string post) in *.
  rewrite (dropWhiteSpace_app p), (dropWhiteSpace_blank p Hpre).
  rewrite (dropWhiteSpace_app l), (dropWhiteSpace_blank q Hpost).
  destruct (dropWhiteSpace l) as [|c rest]; [reflexivity|].
  rewrite rev_app_distr, dropWhiteSpace_app.
  now rewrite (dropWhiteSpace_blank (rev q) (forallb_rev _ _ Hpost)).
Qed.

Lemma dropWhiteSpace_none (l : list ascii) :
  forallb (fun c => negb (isWhiteSpace c)) l = true -> dropWhiteSpace l = l.
Proof.
  destruct l as [|c l]; simpl; [reflexivity|].
  destruct (isWhiteSpace c); simpl; [discriminate|reflexivity].
Qed.

(** A text without white space is its own [trim]. *)
Lemma trim_no_white_space (s : string) :
  forallb (fun c => negb (isWhiteSpace c)) (list_ascii_of_string s) = true ->
  trim s = s.
Proof.
  intros H. unfold trim.
  rewrite (dropWhiteSpace_none _ H).
  rewrite (dropWhiteSpace_none _ (forallb_rev _ _ H)).
  rewrite rev_involutive. apply string_of_list_ascii_of_string.
Qed.

Lemma string_of_uint_no_white_space (u : Decimal.uint) :
  forallb (fun c => negb (isWhiteSpace c))
          (list_ascii_of_string (NilEmpty.string_of_uint u)) = true.
Proof.
  induction u; simpl; auto.
Qed.

Lemma trim_timestampId (c : Clock) : trim (timestampId c) = timestampId c.
Proof.
  apply trim_no_white_space, string_of_uint_no_white_space.
Qed.

Lemma step_ids_trimmed (registrations registrations' : list Registration) :
  step registrations registrations' ->
  Forall (fun reg => trim (id reg) = id reg) registrations ->
  Forall (fun reg => trim (id reg) = id reg) registrations'.
Proof.
  intros Hstep Hall.
  assert (Hupdate : forall i updates, keepsCore updates ->
            Forall (fun reg => trim (id reg) = id reg)
                   (updateRegistration registrations i updates)).
  { intros i updates Hcore. apply updateRegistration_Forall; [exact Hall|].
    intros reg Hin _. rewrite Forall_forall in Hall.
    destruct (spread_sameCore reg updates Hcore) as (Hid & _).
    rewrite Hid. now apply Hall. }
  destruct Hstep as
    [c s registration writeOk _ _ Hpay _
    |reg writeOk _ _
    |reg writeOk writeOk' _ _
    |reg parsed saved writeOk _ _ Hsaved
    |reg writeOk _ _ _
    |manualId saved writeOk Hsaved].
  - apply saveRegistrations_cases; [exact Hall|].
    apply handlePayment_created in Hpay. subst registration.
    apply Forall_app. split; [exact Hall|].
    constructor; [apply trim_timestampId|constructor].
  - apply saveRegistrations_cases; [exact Hall|].
    apply Hupdate, keepsCore_approveUpdates.
  - apply saveRegistrations_cases.
    + apply saveRegistrations_cases; [exact Hall|].
      apply Hupdate, keepsCore_approveUpdates.
    + apply Hupdate, keepsCore_ticketUpdates.
  - apply saveRegistrations_cases; [exact Hall|].
    apply handleAddPartialPayment_saved in Hsaved.
    destruct Hsaved as (amount & _ & _ & ->).
    apply Hupdate, keepsCore_paymentUpdates.
  - apply saveRegistrations_cases; [exact Hall|].
    apply Hupdate, keepsCore_ticketUpdates.
  - apply saveRegistrations_cases; [exact Hall|].
    apply checkIn_saved in Hsaved. destruct Hsaved as (found & _ & _ & _ & ->).
    apply Hupdate, keepsCore_checkInUpdates.
Qed.

Lemma reachable_ids_trimmed (registrations : list Registration) :
  reachable registrations ->
  Forall (fun reg => trim (id reg) = id reg) registrations.
Proof.
  induction 1 as [|regs regs' _ IH Hstep]; [constructor|].
  now apply (step_ids_trimmed regs).
Qed.

(** Among distinct identifiers the look-up by identifier finds the
    record. *)
Lemma find_by_id (registrations : list Registration) (reg : Registration) :
  NoDup (map id registrations) ->
  In reg registrations ->
  find (fun r => String.eqb (id r) (id reg)) registrations = Some reg.
Proof.
  intros Hnd Hin.
  destruct (find (fun r => String.eqb (id r) (id reg)) registrations)
    as [found|] eqn:E.
  - apply find_some in E. destruct E as [Hfound Heq].
    apply String.eqb_eq in Heq.
    now rewrite (distinct_ids_inj registrations found reg Hnd Hfound Hin Heq).
  - apply (find_none _ _ E) in Hin. now rewrite String.eqb_refl in Hin.
Qed.

(** X10.  [handleManualSearch] ignores white space typed around the
    identifier: with tabs, spaces or line breaks before and after it the
    look-up gives what it gives for the identifier alone. *)
Theorem lookup_ignores_surrounding_white_space
    (registrations : list Registration) (pre manualId post : string) :
  blank pre = true -> blank post = true ->
  handleManualSearch registrations (pre ++ manualId ++ post)
  = handleManualSearch registrations manualId.
Proof.
  intros Hpre Hpost. unfold handleManualSearch.
  now rewrite trim_padded.
Qed.

Lemma lookup_ignores_surrounding_white_space_witness :
  handleManualSearch [paidSolo; pendingGuest]
                     (" " ++ "1700000005000" ++ "  ")
  = handleManualSearch [paidSolo; pendingGuest] "1700000005000".
Proof.
  apply (lookup_ignores_surrounding_white_space
           [paidSolo; pendingGuest] " " "1700000005000" "  ");
    reflexivity.
Defined.

(** X11.  Every ticket of a store the operations can produce is found by
    its identifier: the look-up never answers that the ticket is not
    found, it puts that very record in [scanResult] when nothing is owed
    and reports the balance of that record otherwise. *)
Theorem stored_ticket_is_found_by_its_id
    (registrations : list Registration) (reg : Registration) :
  reachable registrations ->
  In reg registrations ->
  handleManualSearch registrations (id reg)
  = (if 0 <? balance reg then inl (PaymentNotComplete (balance reg))
     else inr reg).
Proof.
  intros Hreach Hin.
  pose proof (reachable_wellFormed _ Hreach) as (Hnd & _ & _).
  pose proof (reachable_ids_trimmed _ Hreach) as Hids.
  rewrite Forall_forall in Hids.
  unfold handleManualSearch. rewrite (Hids reg Hin).
  now rewrite (find_by_id registrations reg Hnd Hin).
Qed.

Lemma stored_ticket_is_found_by_its_id_witness :
  handleManualSearch
    [paidSolo; spread pendingGuest
                 (ticketUpdates (generateQRCode pendingGuest))]
    (id paidSolo)
  = (if 0 <? balance paidSolo
     then inl (PaymentNotComplete (balance paidSolo))
     else inr paidSolo).
Proof.
  apply (stored_ticket_is_found_by_its_id
           [paidSolo; spread pendingGuest
                        (ticketUpdates (generateQRCode pendingGuest))]
           paidSolo).
  - reach_sample.
  - simpl. auto.
Defined.

(** ** What a code tells of its ticket *)

Lemma append_assoc (a b c : string) : (a ++ b) ++ c = a ++ b ++ c.
Proof. induction a as [|x a IH]; simpl; [reflexivity|]. now rewrite IH. Qed.

Lemma append_inj_l (p a b : string) : p ++ a = p ++ b -> a = b.
Proof.
  induction p as [|x p IH]; simpl; [auto|]. intros [= H]. now apply IH.
Qed.

Lemma percentDecode_char (c : ascii) (s : string) :
  percentDecode (encodeURIComponent (String c s))
  = match percentDecode (encodeURIComponent s) with
    | Some text => Some (String c text)
    | None => None
    end.
Proof.
  destruct c as [[|] [|] [|] [|] [|] [|] [|] [|]]; reflexivity.
Qed.

Lemma percentDecode_encodeURIComponent (s : string) :
  percentDecode (encodeURIComponent s) = Some s.
Proof.
  induction s as [|c s IH]; [reflexivity|].
  now rewrite percentDecode_char, IH.
Qed.

Lemma encodeURIComponent_inj (a b : string) :
  encodeURIComponent a = encodeURIComponent b -> a = b.
Proof.
  intros H. apply (f_equal percentDecode) in H.
  rewrite !percentDecode_encodeURIComponent in H. congruence.
Qed.

Lemma readJsonBody_char (c : ascii) (rest : string) :
  readJsonBody (jsonEscape c ++ rest)
  = match readJsonBody rest with
    | Some (text, after) => Some (String c text, after)
    | None => None
    end.
Proof.
  destruct c as [[|] [|] [|] [|] [|] [|] [|] [|]]; reflexivity.
Qed.

Lemma readJsonBody_escaped (s rest : string) :
  readJsonBody (jsonEscapeAll s ++ charString 34 ++ rest) = Some (s, rest).
Proof.
  induction s as [|c s IH]; [reflexivity|].
  simpl jsonEscapeAll. rewrite append_assoc, readJsonBody_char.
  now rewrite IH.
Qed.

(** Two string literals followed by anything are equal only for equal
    texts followed by the same thing. *)
Lemma jsonString_app_inj (a b x y : string) :
  jsonString a ++ x = jsonString b ++ y -> a = b /\ x = y.
Proof.
  unfold jsonString. intros H. rewrite !append_assoc in H.
  apply (append_inj_l (charString 34)) in H.
  apply (f_equal readJsonBody) in H.
  rewrite !readJsonBody_escaped in H. now injection H.
Qed.

Lemma ticketTypeName_inj (a b : TicketType) :
  ticketTypeName a = ticketTypeName b -> a = b.
Proof. destruct a, b; simpl; congruence. Qed.

Lemma qrData_inj (a b : Registration) :
  qrData a = qrData b ->
  id a = id b /\ name a = name b /\ ticketType a = ticketType b
  /\ guestName a = guestName b.
Proof.
  unfold qrData. intros H.
  apply (append_inj_l "{") in H.
  apply (append_inj_l (jsonString "id")) in H.
  apply (append_inj_l ":") in H.
  apply jsonString_app_inj in H. destruct H as [Hid H].
  apply (append_inj_l ",") in H.
  apply (append_inj_l (jsonString "name")) in H.
  apply (append_inj_l ":") in H.
  apply jsonString_app_inj in H. destruct H as [Hname H].
  apply (append_inj_l ",") in H.
  apply (append_inj_l (jsonString "ticketType")) in H.
  apply (append_inj_l ":") in H.
  apply jsonString_app_inj in H. destruct H as [Htype H].
  apply ticketTypeName_inj in Htype.
  repeat (split; [assumption|]).
  destruct (guestName a) as [g|], (guestName b) as [g'|].
  - rewrite !append_assoc in H.
    apply (append_inj_l ",") in H.
    apply (append_inj_l (jsonString "guestName")) in H.
    apply (append_inj_l ":") in H.
    apply jsonString_app_inj in H. destruct H as [Hg _]. now subst.
  - discriminate H.
  - discriminate H.
  - reflexivity.
Qed.


(** X12.  A code identifies its ticket: two records for which
    [generateQRCode] returns the same address agree on [id], [name],
    [ticketType] and [guestName].  No two different payloads are ever
    encoded alike. *)
Theorem generateQRCode_determines_fields (a b : Registration) :
  generateQRCode a = generateQRCode b ->
  id a = id b /\ name a = name b /\ ticketType a = ticketType b
  /\ guestName a = guestName b.
Proof.
  unfold generateQRCode. intros H.
  apply append_inj_l in H. apply encodeURIComponent_inj in H.
  now apply qrData_inj.
Qed.

Lemma generateQRCode_determines_fields_witness :
  id pendingGuest = id (spread pendingGuest (approveUpdates pendingGuest))
  /\ name pendingGuest
     = name (spread pendingGuest (approveUpdates pendingGuest))
  /\ ticketType pendingGuest
     = ticketType (spread pendingGuest (approveUpdates pendingGuest))
  /\ guestName pendingGuest
     = guestName (spread pendingGuest (approveUpdates pendingGuest)).
Proof.
  apply (generateQRCode_determines_fields
           pendingGuest (spread pendingGuest (approveUpdates pendingGuest))).
  reflexivity.
Defined.



(** ** The export *)

Lemma occurrences_app (c : ascii) (a b : string) :
  occurrences c (a ++ b) = (occurrences c a + occurrences c b)%nat.
Proof.
  induction a as [|d a IH]; simpl; [reflexivity|]. rewrite IH. lia.
Qed.

Lemma occurrences_uint (c : ascii) (u : Decimal.uint) :
  (N_of_ascii c <? 45)%N = true ->
  occurrences c (NilEmpty.string_of_uint u) = 0%nat.
Proof.
  intros Hc.
  assert (Hne : forall d, (45 <=? N_of_ascii d)%N = true ->
                          Ascii.eqb c d = false).
  { intros d Hd. apply Ascii.eqb_neq. intros ->.
    apply N.ltb_lt in Hc. apply N.leb_le in Hd. lia. }
  induction u; simpl; try rewrite Hne by reflexivity; auto.
Qed.

Lemma occurrences_number (c : ascii) (z : Z) :
  (N_of_ascii c <? 45)%N = true ->
  occurrences c (numberToString z) = 0%nat.
Proof.
  intros Hc. unfold numberToString.
  destruct (Z.to_int z) as [u|u]; simpl.
  - now apply occurrences_uint.
  - rewrite (occurrences_uint c u Hc).
    assert (E : Ascii.eqb c "-" = false).
    { apply Ascii.eqb_neq. intros ->. discriminate Hc. }
    now rewrite E.
Qed.

Lemma occurrences_join (c : ascii) (sep cell : string)
    (rest : list string) :
  occurrences c (join sep (cell :: rest))
  = (occurrences c cell + List.length rest * occurrences c sep
     + list_sum (map (occurrences c) rest))%nat.
Proof.
  revert cell. induction rest as [|next rest IH]; intros cell.
  - simpl. lia.
  - change (join sep (cell :: next :: rest))
      with (cell ++ sep ++ join sep (next :: rest)).
    rewrite !occurrences_app, IH. simpl. lia.
Qed.

Lemma csvRow_occurrences (c : ascii) (reg : Registration) :
  (N_of_ascii c <? 45)%N = true ->
  Ascii.eqb c " " = false -> Ascii.eqb c "+" = false ->
  occurrences c (join "," (csvRow reg))
  = (8 * occurrences c "," + typedOccurrences c reg)%nat.
Proof.
  intros Hc Hspace Hplus.
  assert (Hne : forall d, (45 <=? N_of_ascii d)%N = true ->
                          Ascii.eqb c d = false).
  { intros d Hd. apply Ascii.eqb_neq. intros ->.
    apply N.ltb_lt in Hc. apply N.leb_le in Hd. lia. }
  unfold csvRow, typedOccurrences. rewrite occurrences_join.
  cbn [map list_sum List.length].
  rewrite !(occurrences_number c _ Hc).
  destruct (ticketType reg), (isCash (paymentMethod reg)), (status reg);
    simpl; rewrite ?Hspace, ?Hplus;
    repeat match goal with
           | |- context [Ascii.eqb c ?d] => rewrite (Hne d) by reflexivity
           end;
    destruct (Ascii.eqb c ","); lia.
Qed.

(** X14.  The export quotes nothing.  In the text [exportToCSV] builds,
    the line of a record has eight commas plus one for every comma in its
    name, guest name or transaction reference, and the text has one line
    feed per record plus one for every line feed in those three cells:
    the table has one row of nine cells per record exactly when none of
    the three holds a comma or a line feed. *)
Theorem exportToCSV_quotes_nothing (registrations : list Registration) :
  occurrences "," (join "," csvHeaders) = 8%nat
  /\ Forall (fun reg =>
               occurrences "," (join "," (csvRow reg))
               = (8 + typedOccurrences "," reg)%nat)
            registrations
  /\ occurrences (ascii_of_N 10) (csvText registrations)
     = (List.length registrations
        + list_sum (map (typedOccurrences (ascii_of_N 10)) registrations))%nat.
Proof.
  split; [reflexivity|]. split.
  - apply Forall_forall. intros reg _.
    now rewrite csvRow_occurrences.
  - unfold csvText. cbn [map]. rewrite occurrences_join.
    rewrite !length_map, !map_map.
    change (occurrences (ascii_of_N 10) (join "," csvHeaders)) with 0%nat.
    change (occurrences (ascii_of_N 10) (charString 10)) with 1%nat.
    rewrite (map_ext
               (fun reg => occurrences (ascii_of_N 10) (join "," (csvRow reg)))
               (typedOccurrences (ascii_of_N 10))).
    + lia.
    + intros reg. now rewrite csvRow_occurrences.
Qed.

(** ** The pages and the password *)

Lemma press_locked (st : Shell) (p : Press) :
  loggedOut st = true ->
  p <> Login "admin123" ->
  loggedOut (press st p) = true.
Proof.
  intros H Hp.
  destruct p as [|password| | | | |].
  2: { destruct st as [[| |] [|]]; try discriminate H;
         cbn -[String.eqb]; try reflexivity;
         destruct (String.eqb_spec password "admin123") as [->|_];
         [now contradiction Hp|reflexivity]. }
  all: destruct st as [[| |] [|]]; try discriminate H; reflexivity.
Qed.

Lemma pressWeb_locked (st : Shell) (p : Press) :
  loggedOut st = true ->
  p <> Login "admin123" ->
  loggedOut (pressWeb st p) = true.
Proof.
  intros H Hp.
  destruct p as [|password| | | | |].
  2: { destruct st as [[| |] [|]]; try discriminate H;
         cbn -[String.eqb]; try reflexivity;
         destruct (String.eqb_spec password "admin123") as [->|_];
         [now contradiction Hp|reflexivity]. }
  all: destruct st as [[| |] [|]]; try discriminate H; reflexivity.
Qed.

Lemma loggedOut_pages (st : Shell) :
  loggedOut st = true ->
  adminOnly (render st) = false
  /\ option_map adminOnly (renderWeb st) = Some false.
Proof.
  destruct st as [[| |] [|]]; simpl; intros H;
    try discriminate H; split; reflexivity.
Qed.

Lemma Login_or_not (p : Press) :
  p = Login "admin123" \/ p <> Login "admin123".
Proof.
  destruct p as [|password| | | | |]; try (right; discriminate).
  destruct (String.eqb_spec password "admin123") as [->|Hne];
    [now left|right; congruence].
Qed.

Lemma presses_locked (presses : list Press) (st : Shell) :
  loggedOut st = true ->
  ~ In (Login "admin123") presses ->
  loggedOut (fold_left press presses st) = true
  /\ loggedOut (fold_left pressWeb presses st) = true.
Proof.
  revert st. induction presses as [|p presses IH]; simpl; intros st H Hnot.
  - now split.
  - assert (Hp : p <> Login "admin123") by (intros ->; apply Hnot; now left).
    assert (Hrest : ~ In (Login "admin123") presses)
      by (intros Hin; apply Hnot; now right).
    split.
    + apply (IH (press st p)); [now apply press_locked|exact Hrest].
    + apply (IH (pressWeb st p)); [now apply pressWeb_locked|exact Hrest].
Qed.

Lemma In_Login_or_not (presses : list Press) :
  In (Login "admin123") presses \/ ~ In (Login "admin123") presses.
Proof.
  induction presses as [|p presses [IH|IH]]; simpl.
  - now right.
  - left. now right.
  - destruct (Login_or_not p) as [->|Hp]; [left; now left|].
    right. intros [H|H]; [now apply Hp|now apply IH].
Qed.

(** X15.  No page of the administrator without the password.  Starting
    from a state without a session ([isAdminAuth] false and the scanner
    not shown: the initial state, or the state after Logout), whatever
    buttons are pressed, the dashboard or the scanner is shown only if
    Login was pressed with the password [admin123]; this holds for the
    callbacks of both variants of the application. *)
Theorem admin_pages_need_the_password (st : Shell) (presses : list Press) :
  loggedOut st = true ->
  (adminOnly (render (fold_left press presses st)) = true ->
   In (Login "admin123") presses)
  /\ (option_map adminOnly (renderWeb (fold_left pressWeb presses st))
      = Some true ->
      In (Login "admin123") presses).
Proof.
  intros Hout.
  destruct (In_Login_or_not presses) as [Hin|Hnot]; [now split|].
  destruct (presses_locked presses st Hout Hnot) as [H Hweb].
  apply loggedOut_pages in H. apply loggedOut_pages in Hweb.
  destruct H as [H _]. destruct Hweb as [_ Hweb].
  split; intros Hopen; congruence.
Qed.

Lemma admin_pages_need_the_password_witness :
  (adminOnly (render (fold_left press
                        [SwitchToAdmin; Login "guess"; Login "admin123";
                         OpenScanner]
                        initialShell)) = true ->
   In (Login "admin123")
      [SwitchToAdmin; Login "guess"; Login "admin123"; OpenScanner])
  /\ (option_map adminOnly
        (renderWeb (fold_left pressWeb
                      [SwitchToAdmin; Login "guess"; Login "admin123";
                       OpenScanner]
                      initialShell))
      = Some true ->
      In (Login "admin123")
         [SwitchToAdmin; Login "guess"; Login "admin123"; OpenScanner]).
Proof.
  apply (admin_pages_need_the_password
           initialShell
           [SwitchToAdmin; Login "guess"; Login "admin123"; OpenScanner]).
  reflexivity.
Defined.

(** The pages reached by the presses of the witness. *)
Example admin_pages_sample :
  render (fold_left press [SwitchToAdmin; Login "guess"] initialShell)
  = AdminLogin
  /\ render (fold_left press
               [SwitchToAdmin; Login "guess"; Login "admin123"; OpenScanner]
               initialShell)
     = QRScannerPage.
Proof. split; reflexivity. Qed.

(** X16.  The two variants differ on what Register New leaves behind.
    With the callbacks of [EventRegistrationApp.tsx], leaving the
    dashboard by Register New and pressing the lock of the registration
    page shows the dashboard again, no password asked; with those of
    [EventRegistrationApp.web.tsx] the lock always leads to the login
    page.  After Logout both ask for the password. *)
Theorem register_new_keeps_the_session (st : Shell) :
  render st = AdminDashboard ->
  render (press (press st BackToRegister) SwitchToAdmin) = AdminDashboard
  /\ renderWeb (pressWeb (pressWeb st BackToRegister) SwitchToAdmin)
     = Some AdminLogin
  /\ render (press (press st Logout) SwitchToAdmin) = AdminLogin
  /\ renderWeb (pressWeb (pressWeb st Logout) SwitchToAdmin)
     = Some AdminLogin.
Proof.
  destruct st as [[| |] [|]]; simpl; intros H; try discriminate H.
  repeat split.
Qed.

Lemma register_new_keeps_the_session_witness :
  let st := fold_left press [SwitchToAdmin; Login "admin123"] initialShell in
  render (press (press st BackToRegister) SwitchToAdmin) = AdminDashboard
  /\ renderWeb (pressWeb (pressWeb st BackToRegister) SwitchToAdmin)
     = Some AdminLogin
  /\ render (press (press st Logout) SwitchToAdmin) = AdminLogin
  /\ renderWeb (pressWeb (pressWeb st Logout) SwitchToAdmin)
     = Some AdminLogin.
Proof.
  apply (register_new_keeps_the_session
           (fold_left press [SwitchToAdmin; Login "admin123"] initialShell)).
  reflexivity.
Defined.

(** ** Updates of different records, and the ledger in terms of the balance *)

(** X17.  Updates saved for two different identifiers commute, as long as
    neither rewrites the identifier: approving one record and checking in
    or crediting another give the same store in either order. *)
Theorem updates_of_different_records_commute
    (registrations : list Registration) (i j : string) (u v : Updates) :
  i <> j -> u_id u = None -> u_id v = None ->
  updateRegistration (updateRegistration registrations i u) j v
  = updateRegistration (updateRegistration registrations j v) i u.
Proof.
  intros Hij Hu Hv. unfold updateRegistration. rewrite !map_map.
  apply map_ext. intros reg.
  assert (Hidu : id (spread reg u) = id reg) by (simpl; now rewrite Hu).
  assert (Hidv : id (spread reg v) = id reg) by (simpl; now rewrite Hv).
  destruct (String.eqb (id reg) i) eqn:Ei;
    destruct (String.eqb (id reg) j) eqn:Ej;
    rewrite ?Hidu, ?Hidv, ?Ei, ?Ej; try reflexivity.
  apply String.eqb_eq in Ei. apply String.eqb_eq in Ej. congruence.
Qed.

Lemma updates_of_different_records_commute_witness :
  updateRegistration
    (updateRegistration [paidSolo; pendingGuest] (id pendingGuest)
                        (approveUpdates pendingGuest))
    (id paidSolo) checkInUpdates
  = updateRegistration
      (updateRegistration [paidSolo; pendingGuest] (id paidSolo)
                          checkInUpdates)
      (id pendingGuest) (approveUpdates pendingGuest).
Proof.
  apply (updates_of_different_records_commute
           [paidSolo; pendingGuest] (id pendingGuest) (id paidSolo)
           (approveUpdates pendingGuest) checkInUpdates).
  - discriminate.
  - reflexivity.
  - reflexivity.
Defined.



(** ** The receipt upload *)


